(** * Label detection and normalisation pipeline of [src/App.jsx]

    A shallow embedding of the [App] component: the computer-vision
    pipeline [processImage], the file handler [handleFileUpload], the
    manual rotation [handleRotate] and [reset], together with the
    properties of the specification that are about them.

    Modelling conventions.
    - Pixel counts (image and rectangle sides, areas) are JavaScript
      numbers holding integers; they are [Z] here.  The fractional
      quantities ([totalArea * MIN_AREA_RATIO], the ratios compared with
      0.2, 4.0, 0.4 and 2.5) are exact rationals [Q]; a division is a
      [number], which adds the IEEE special values that [x / 0] yields.
      Rounding of binary64 is not modelled: for the sides a browser
      canvas supports (at most 65535 pixels) the comparisons of the
      source agree with the exact ones.
    - The OpenCV.js, PDF.js and FileReader calls are the fields of the
      class [Engine]; [cv.rotate], [roi] and the size of [cv.resize] are
      written out from their documented behaviour.  Of the exceptions
      these libraries can raise, the one of [getImageData] on an empty
      canvas and those of loading a file are modelled.
    - A data URL is identified with the raster it encodes.  The
      monad of the handlers has two outcomes, a value or an exception:
      it describes a handler that settles.  An image element whose
      [onload] never fires (no [onerror] is registered at lines
      225-348 and 169-189) is a task that stays pending in the last
      part.
    - [addLog] prefixes every message with the wall-clock time; the
      prefix is left out.
    - The handlers are first modelled as whole runs (a handler that
      has settled), with the states after each [setStatus] call kept
      in [history]; what the caller sees while asynchronous handlers
      overlap, or never settle, is modelled in the last part, piece by
      piece between two [await]s, with React's batching of updates. *)

From Stdlib Require Import ZArith QArith List String Bool Lia.
From Stdlib Require Import DecimalString Permutation Sorted.
Import ListNotations.

Open Scope Z_scope.

(** ** JavaScript numbers that come out of a division *)

Module JS.

Inductive number : Type :=
| Fin (q : Q)
| PosInfinity
| NegInfinity
| NaN.

(** [a / b] for two integer-valued numbers. *)
Definition div (a b : Z) : number :=
  if b =? 0 then
    if 0 <? a then PosInfinity
    else if a <? 0 then NegInfinity
    else NaN
  else Fin (inject_Z a / inject_Z b).

Definition Qltb (p q : Q) : bool := negb (Qle_bool q p).

(** [x < c] and [x > c]; every comparison with [NaN] is false. *)
Definition ltb (x : number) (c : Q) : bool :=
  match x with
  | Fin q => Qltb q c
  | PosInfinity => false
  | NegInfinity => true
  | NaN => false
  end.

Definition gtb (x : number) (c : Q) : bool :=
  match x with
  | Fin q => Qltb c q
  | PosInfinity => true
  | NegInfinity => false
  | NaN => false
  end.

(** Template-literal rendering of an integer-valued number. *)
Definition toString (z : Z) : string := NilZero.string_of_int (Z.to_int z).

End JS.

(** ** Geometry: [cv.Rect], [cv.Size], [cv.Mat] *)

Record Rect : Type := mkRect { x : Z; y : Z; width : Z; height : Z }.

Record Size : Type := mkSize { sz_width : Z; sz_height : Z }.

(** A matrix is its dimensions and its pixel at (row, column). *)
Record Mat (Pixel : Type) : Type :=
  mkMat { cols : Z; rows : Z; at_ : Z -> Z -> Pixel }.

Arguments mkMat {Pixel} _ _ _.
Arguments cols {Pixel} _.
Arguments rows {Pixel} _.
Arguments at_ {Pixel} _ _ _.

Inductive RotateFlags : Type :=
| ROTATE_90_CLOCKWISE
| ROTATE_90_COUNTERCLOCKWISE.

(** [cv.rotate]: transpose, then flip around the vertical axis
    (clockwise) or the horizontal axis (counter-clockwise). *)
Definition rotate {Pixel} (src : Mat Pixel) (code : RotateFlags) : Mat Pixel :=
  match code with
  | ROTATE_90_CLOCKWISE =>
      mkMat (rows src) (cols src) (fun i j => at_ src (rows src - 1 - j) i)
  | ROTATE_90_COUNTERCLOCKWISE =>
      mkMat (rows src) (cols src) (fun i j => at_ src j (cols src - 1 - i))
  end.

(** [src.roi(rect)]: the sub-matrix at [rect]. *)
Definition roi {Pixel} (src : Mat Pixel) (r : Rect) : Mat Pixel :=
  mkMat (width r) (height r) (fun i j => at_ src (y r + i) (x r + j)).

(** ** Errors and files *)

(** A thrown [Error] is its [message]. *)
Definition Error : Type := string.

Definition NoLabelDetected : Error := "No shipping label detected."%string.
Definition UnsupportedInput : Error :=
  "Unsupported file type. Please upload PDF, PNG, or JPG."%string.
(** The DOMException of [getImageData] on an empty rectangle (its
    [message] differs between browsers). *)
Definition IndexSizeError : Error :=
  "IndexSizeError: The source width or height is 0."%string.
(** [candidates[0].rect] on an empty array. *)
Definition TypeErrorUndefined : Error :=
  "Cannot read properties of undefined (reading 'rect')"%string.

(** [name], [type] (the MIME type) and the content of a [File]. *)
Record File : Type := mkFile { name : string; type : string; payload : list Z }.

(** ** The external engines *)

Class Engine : Type := {
  Pixel : Type;
  (** Lines 239-242: a pixel of the image composited over the white
      fill of the canvas. *)
  overWhite : Pixel -> Pixel;
  (** Lines 248-267 and 276: grayscale, blur, Otsu threshold, dilation,
      [findContours] with [RETR_LIST], and [boundingRect] of each contour
      in extraction order. *)
  contourRects : Mat Pixel -> list Rect;
  (** [cv.resize] with [INTER_LANCZOS4]: the pixel of the destination. *)
  lanczos4 : Mat Pixel -> Size -> Z -> Z -> Pixel;
  (** PDF.js: [getDocument(arrayBuffer).promise], [pdf.numPages], and
      the rendering of page 1 at scale 3.0 over white (lines 145-160). *)
  PdfDocument : Type;
  getDocument : File -> Error + PdfDocument;
  numPages : PdfDocument -> Z;
  renderFirstPage : PdfDocument -> Error + Mat Pixel;
  (** [readFileAsDataURL] (lines 130-137), once the reader has
      settled: the raster that the data URL encodes, or the error
      event of the reader. *)
  readFileAsDataURL : File -> Error + Mat Pixel
}.

Definition Image `{Engine} : Type := Mat Pixel.

(** [cv.resize(src, dst, dsize, 0, 0, cv.INTER_LANCZOS4)]. *)
Definition resize `{Engine} (src : Image) (dsize : Size) : Image :=
  mkMat (sz_width dsize) (sz_height dsize) (lanczos4 src dsize).

(** ** Configuration (lines 28-34) *)

Record Config : Type := mkConfig {
  TARGET_WIDTH : Z;
  TARGET_HEIGHT : Z;
  MIN_AREA_RATIO : Q;
  MAX_AREA_RATIO : Q
}.

Definition CONFIG : Config :=
  {| TARGET_WIDTH := 1200;
     TARGET_HEIGHT := 1800;
     MIN_AREA_RATIO := 1 # 100;
     MAX_AREA_RATIO := 99 # 100 |}.

(** ** Candidates: the filter loop (lines 271-291) *)

Record Candidate : Type := mkCandidate { area : Z; rect : Rect }.

Definition areaRejected (totalArea a : Z) : bool :=
  JS.Qltb (inject_Z a) (inject_Z totalArea * MIN_AREA_RATIO CONFIG)
  || JS.Qltb (inject_Z totalArea * MAX_AREA_RATIO CONFIG) (inject_Z a).

Definition ratioRejected (r : Rect) : bool :=
  let ratio := JS.div (width r) (height r) in
  JS.ltb ratio (2 # 10) || JS.gtb ratio 4.

Fixpoint collectCandidates (totalArea : Z) (contours : list Rect)
  : list Candidate :=
  match contours with
  | [] => []
  | r :: rest =>
      let a := width r * height r in
      if areaRejected totalArea a then collectCandidates totalArea rest
      else if ratioRejected r then collectCandidates totalArea rest
      else mkCandidate a r :: collectCandidates totalArea rest
  end.

(** ** [candidates.sort((a, b) => b.area - a.area)] (line 313)

    [Array.prototype.sort] is a stable sort (ECMAScript 2019): a
    negative comparator value puts [a] first, a positive one puts [b]
    first, and elements that compare equal keep their order. *)

Definition byAreaDesc (a b : Candidate) : Z := area b - area a.

Section Sort.
Context {A : Type} (compareFn : A -> A -> Z).

Fixpoint insertSorted (a : A) (l : list A) : list A :=
  match l with
  | [] => [a]
  | b :: rest =>
      if 0 <? compareFn a b then b :: insertSorted a rest
      else a :: b :: rest
  end.

Definition sort (l : list A) : list A := fold_right insertSorted [] l.
End Sort.

(** ** Component state and the monad of its handlers *)

Inductive Status : Type := loading | ready | processing | success | error.

(** The [useState] cells of [App] (lines 19-23). *)
Record AppState `{Engine} : Type := mkAppState {
  status : Status;
  logs : list string;
  file : option File;
  originalImage : option Image;
  processedImage : option Image
}.

Arguments mkAppState {_} _ _ _ _ _.

(** The state together with what the caller has been shown: the state
    as it stood after each [setStatus]. *)
Record World `{Engine} : Type := mkWorld {
  present : AppState;
  history : list AppState
}.

Arguments mkWorld {_} _ _.

Inductive Outcome (A : Type) : Type :=
| Returned (a : A)
| Threw (e : Error).

Arguments Returned {A} _.
Arguments Threw {A} _.

Definition M `{Engine} (A : Type) : Type := World -> Outcome A * World.

Definition ret `{Engine} {A} (a : A) : M A := fun w => (Returned a, w).

Definition bind `{Engine} {A B} (m : M A) (k : A -> M B) : M B :=
  fun w =>
    match m w with
    | (Returned a, w') => k a w'
    | (Threw e, w') => (Threw e, w')
    end.

Definition throw `{Engine} {A} (e : Error) : M A := fun w => (Threw e, w).

Definition tryCatch `{Engine} {A} (m : M A) (handler : Error -> M A) : M A :=
  fun w =>
    match m w with
    | (Returned a, w') => (Returned a, w')
    | (Threw e, w') => handler e w'
    end.

Definition liftE `{Engine} {A} (r : Error + A) : M A :=
  match r with
  | inl e => throw e
  | inr a => ret a
  end.

Declare Scope handler_scope.
Delimit Scope handler_scope with handler.
Notation "x <- m ;; k" := (bind m (fun x => k))
  (at level 61, m at next level, right associativity) : handler_scope.
Notation "m ;; k" := (bind m (fun _ => k))
  (at level 61, right associativity) : handler_scope.
Open Scope handler_scope.

Definition modify `{Engine} (f : AppState -> AppState) : M unit :=
  fun w => (Returned tt, mkWorld (f (present w)) (history w)).

Definition setStatus `{Engine} (st : Status) : M unit :=
  fun w =>
    let a := present w in
    let a' := mkAppState st (logs a) (file a) (originalImage a)
                (processedImage a) in
    (Returned tt, mkWorld a' (history w ++ [a'])).

Definition setLogs `{Engine} (f : list string -> list string) : M unit :=
  modify (fun a => mkAppState (status a) (f (logs a)) (file a)
                     (originalImage a) (processedImage a)).

Definition setFile `{Engine} (v : option File) : M unit :=
  modify (fun a => mkAppState (status a) (logs a) v
                     (originalImage a) (processedImage a)).

Definition setOriginalImage `{Engine} (v : option Image) : M unit :=
  modify (fun a => mkAppState (status a) (logs a) (file a)
                     v (processedImage a)).

Definition setProcessedImage `{Engine} (v : option Image) : M unit :=
  modify (fun a => mkAppState (status a) (logs a) (file a)
                     (originalImage a) v).

(** Lines 84-86. *)
Definition addLog `{Engine} (msg : string) : M unit :=
  setLogs (fun prev => prev ++ [msg]).

(** Lines 88-95. *)
Definition reset `{Engine} : M unit :=
  setFile None;;
  setOriginalImage None;;
  setProcessedImage None;;
  setStatus ready;;
  setLogs (fun _ => []);;
  addLog "Ready for new file."%string.

Definition getState `{Engine} : M AppState := fun w => (Returned (present w), w).

(** ** The core logic: [processImage] (lines 224-349) *)

(** Lines 234-242: the canvas of the image's size, filled white, with
    the image drawn on it. *)
Definition drawnOverWhite `{Engine} (img : Image) : Image :=
  mkMat (cols img) (rows img) (fun i j => overWhite (at_ img i j)).

(** Lines 245-246: [ctx.getImageData(0, 0, width, height)], then
    [cv.matFromImageData].  The canvas API throws an IndexSizeError
    DOMException when the width or the height asked for is zero (HTML
    Standard, pixel manipulation); the [try] block of line 229 passes
    it to [reject]. *)
Definition getImageData `{Engine} (img : Image) : M Image :=
  if (cols img =? 0) || (rows img =? 0) then throw IndexSizeError
  else ret (drawnOverWhite img).

(** [new cv.Rect(0, 0, src.cols, src.rows)] (line 303). *)
Definition fullRect `{Engine} (src : Image) : Rect :=
  mkRect 0 0 (cols src) (rows src).

Definition FALLBACK_TRIGGERED : string :=
  "Fallback triggered: Using full image as label."%string.

(** Lines 271-311: the filter loop, then the fallback. *)
Definition gatherCandidates `{Engine} (src : Image) (contours : list Rect)
  : M (list Candidate) :=
  let totalArea := cols src * rows src in
  let candidates := collectCandidates totalArea contours in
  if Nat.eqb (List.length candidates) 0 then
    addLog "No specific label contour found. Checking for fallback..."%string;;
    let pageRatio := JS.div (cols src) (rows src) in
    if JS.gtb pageRatio (4 # 10) && JS.ltb pageRatio (25 # 10) then
      addLog FALLBACK_TRIGGERED;;
      ret (candidates ++ [mkCandidate totalArea (fullRect src)])
    else
      throw NoLabelDetected
  else ret candidates.

(** Lines 313-315: sort by area, take the rectangle of the first. *)
Definition pickBest `{Engine} (candidates : list Candidate) : M Rect :=
  match sort byAreaDesc candidates with
  | [] => throw TypeErrorUndefined
  | best :: _ =>
      let bestRect := rect best in
      addLog ("Target locked. Cropping area: "
              ++ JS.toString (width bestRect) ++ "x"
              ++ JS.toString (height bestRect))%string;;
      ret bestRect
  end.

(** Lines 248-315: from the source matrix to [bestRect]. *)
Definition locateLabel `{Engine} (src : Image) : M Rect :=
  let contours := contourRects src in
  addLog ("Found " ++ JS.toString (Z.of_nat (List.length contours))
          ++ " potential contours.")%string;;
  candidates <- gatherCandidates src contours;;
  pickBest candidates.

(** Lines 319-325. *)
Definition normalizeOrientation `{Engine} (crop : Image) : M Image :=
  if cols crop >? rows crop then
    addLog "Detected Landscape orientation. Rotating 90 degrees..."%string;;
    ret (rotate crop ROTATE_90_CLOCKWISE)
  else ret crop.

Definition processImage `{Engine} (imageSrc : Image) : M unit :=
  addLog "Starting Computer Vision analysis..."%string;;
  src <- getImageData imageSrc;;
  bestRect <- locateLabel src;;
  crop <- normalizeOrientation (roi src bestRect);;
  let finalSize := mkSize (TARGET_WIDTH CONFIG) (TARGET_HEIGHT CONFIG) in
  let final := resize crop finalSize in
  setProcessedImage (Some final);;
  setStatus success;;
  addLog "Processing Complete!"%string.

(** ** File handling (lines 98-161) *)

Definition convertPdfToImage `{Engine} (f : File) : M Image :=
  pdf <- liftE (getDocument f);;
  addLog ("PDF Loaded. Pages: " ++ JS.toString (numPages pdf)
          ++ ". Analyzing Page 1...")%string;;
  liftE (renderFirstPage pdf).

(** Lines 108-118: the image source by declared file type. *)
Definition loadImageSrc `{Engine} (uploadedFile : File) : M Image :=
  if String.eqb (type uploadedFile) "application/pdf" then
    addLog "Detected PDF. Converting to image..."%string;;
    convertPdfToImage uploadedFile
  else if String.prefix "image/" (type uploadedFile) then
    addLog "Detected Image. Loading..."%string;;
    liftE (readFileAsDataURL uploadedFile)
  else throw UnsupportedInput.

Definition handleFileUpload `{Engine} (files0 : option File) : M unit :=
  match files0 with
  | None => ret tt
  | Some uploadedFile =>
      reset;;
      setFile (Some uploadedFile);;
      setStatus processing;;
      addLog ("Processing file: " ++ name uploadedFile)%string;;
      tryCatch
        (imageSrc <- loadImageSrc uploadedFile;;
         setOriginalImage (Some imageSrc);;
         processImage imageSrc)
        (fun err =>
           setStatus error;;
           addLog ("Error: " ++ err)%string)
  end.

(** ** Manual rotation (lines 163-190) *)

Definition handleRotate `{Engine} (direction : string) : M unit :=
  a <- getState;;
  match processedImage a with
  | None => ret tt
  | Some img =>
      let oldStatus := status a in
      setStatus processing;;
      let src := img in
      let rotateCode :=
        if String.eqb direction "left" then ROTATE_90_COUNTERCLOCKWISE
        else ROTATE_90_CLOCKWISE in
      let dst := rotate src rotateCode in
      setProcessedImage (Some dst);;
      setStatus oldStatus
  end.

(** The log lines added between two worlds. *)
Definition emitted `{Engine} (before after : World) : list string :=
  skipn (List.length (logs (present before))) (logs (present after)).

(** ** A concrete engine, for evaluating the model *)

Module Scenario.

(** A blank gray-level page. *)
Definition page (w h : Z) : Mat Z := mkMat w h (fun _ _ => 255).

(** Gray-level pixels; the contour finder reports [found]; resizing
    takes the nearest source pixel; a file's payload is the width and
    the height of the page it holds. *)
Definition engine (found : list Rect) : Engine :=
  {| Pixel := Z;
     overWhite := fun p => p;
     contourRects := fun _ => found;
     lanczos4 := fun src dsize i j =>
       at_ src (i * rows src / sz_height dsize) (j * cols src / sz_width dsize);
     PdfDocument := File;
     getDocument := fun f => inr f;
     numPages := fun _ => 1;
     renderFirstPage := fun f =>
       match payload f with
       | [w; h] => inr (page (3 * w) (3 * h))
       | _ => inl "Invalid PDF structure."%string
       end;
     readFileAsDataURL := fun f =>
       match payload f with
       | [w; h] => inr (page w h)
       | _ => inl "undefined"%string
       end |}.

(** The component right after the libraries are loaded (lines 76-81). *)
Definition start (found : list Rect) : @World (engine found) :=
  @mkWorld (engine found)
    (@mkAppState (engine found) ready
       ["System Ready. Upload a shipping label."%string] None None None)
    [].

Definition png (w h : Z) : File :=
  mkFile "label.png"%string "image/png"%string [w; h].

End Scenario.

(** * Properties *)

(** ** Rational comparisons *)

Lemma Qltb_true (p q : Q) : JS.Qltb p q = true <-> (p < q)%Q.
Proof.
  unfold JS.Qltb. rewrite negb_true_iff. split.
  - intro Hb. apply Qnot_le_lt. intro Hle.
    apply Qle_bool_iff in Hle. congruence.
  - intro Hlt. destruct (Qle_bool q p) eqn:Hb; [|reflexivity].
    apply Qle_bool_iff in Hb. exfalso. exact (Qlt_not_le _ _ Hlt Hb).
Qed.

Lemma Qltb_false (p q : Q) : JS.Qltb p q = false <-> (q <= p)%Q.
Proof.
  unfold JS.Qltb. rewrite negb_false_iff. apply Qle_bool_iff.
Qed.

(** ** Sorting by area *)

Section SortFacts.
Context {A : Type} (compareFn : A -> A -> Z).

Lemma insertSorted_Permutation (a : A) (l : list A) :
  Permutation (a :: l) (insertSorted compareFn a l).
Proof.
  induction l as [|b rest IH]; simpl.
  - apply Permutation_refl.
  - destruct (0 <? compareFn a b).
    + eapply perm_trans; [apply perm_swap|]. now apply perm_skip.
    + apply Permutation_refl.
Qed.

Lemma sort_Permutation (l : list A) : Permutation l (sort compareFn l).
Proof.
  induction l as [|a rest IH]; simpl.
  - apply perm_nil.
  - eapply perm_trans; [|apply insertSorted_Permutation].
    now apply perm_skip.
Qed.

Lemma sort_cons (a : A) (l : list A) :
  sort compareFn (a :: l) = insertSorted compareFn a (sort compareFn l).
Proof. reflexivity. Qed.

End SortFacts.

(** The model of [sort] with [byAreaDesc] is the stable sort by
    decreasing area: its result is ordered, and candidates of equal
    area keep their relative order. *)
Lemma insertSorted_descending (c : Candidate) (l : list Candidate) :
  StronglySorted (fun a b => area b <= area a) l ->
  StronglySorted (fun a b => area b <= area a) (insertSorted byAreaDesc c l).
Proof.
  induction l as [|b rest IH]; intros Hs; cbn.
  - constructor; constructor.
  - inversion Hs as [|? ? Hrest Hall]; subst. unfold byAreaDesc at 1.
    destruct (0 <? area b - area c) eqn:Hcmp.
    + apply Z.ltb_lt in Hcmp. constructor; [now apply IH|].
      eapply Permutation_Forall; [apply insertSorted_Permutation|].
      constructor; [lia | exact Hall].
    + apply Z.ltb_ge in Hcmp. constructor; [exact Hs|].
      constructor; [lia|].
      eapply Forall_impl; [|exact Hall]. cbn. intros a Ha. lia.
Qed.

Lemma sort_descending (l : list Candidate) :
  StronglySorted (fun a b => area b <= area a) (sort byAreaDesc l).
Proof.
  induction l as [|c l IH]; [constructor|].
  rewrite sort_cons. now apply insertSorted_descending.
Qed.

Lemma insertSorted_stable (k : Z) (c : Candidate) (l : list Candidate) :
  filter (fun a => area a =? k) (insertSorted byAreaDesc c l)
  = filter (fun a => area a =? k) (c :: l).
Proof.
  induction l as [|b rest IH]; [reflexivity|].
  cbn [insertSorted]. unfold byAreaDesc at 1.
  destruct (0 <? area b - area c) eqn:Hcmp; [|reflexivity].
  apply Z.ltb_lt in Hcmp. cbn [filter] in *. rewrite IH.
  destruct (area b =? k) eqn:Hb; destruct (area c =? k) eqn:Hc;
    try reflexivity.
  apply Z.eqb_eq in Hb, Hc. lia.
Qed.

Lemma sort_stable (k : Z) (l : list Candidate) :
  filter (fun a => area a =? k) (sort byAreaDesc l)
  = filter (fun a => area a =? k) l.
Proof.
  induction l as [|c l IH]; [reflexivity|].
  rewrite sort_cons, insertSorted_stable. cbn [filter]. now rewrite IH.
Qed.

(** [best] is the first element of [l] whose area is the greatest. *)
Definition firstOfGreatestArea (l : list Candidate) (best : Candidate) : Prop :=
  exists before after,
    l = before ++ best :: after
    /\ (forall c, In c before -> area c < area best)
    /\ (forall c, In c after -> area c <= area best).

Lemma firstOfGreatestArea_bound l best c :
  firstOfGreatestArea l best -> In c l -> area c <= area best.
Proof.
  intros (before & after & -> & Hb & Ha) Hin.
  apply in_app_or in Hin. destruct Hin as [Hin | [<- | Hin]].
  - specialize (Hb _ Hin). lia.
  - lia.
  - now apply Ha.
Qed.

Lemma sort_head_firstOfGreatestArea (l : list Candidate) :
  l <> [] ->
  exists best rest,
    sort byAreaDesc l = best :: rest /\ firstOfGreatestArea l best.
Proof.
  induction l as [|c l IH]; [congruence|]. intros _.
  destruct l as [|d l'].
  - exists c, []. split; [reflexivity|].
    exists [], []. repeat split; simpl; intros; contradiction.
  - destruct IH as (best & rest & Hs & Hfirst); [discriminate|].
    rewrite sort_cons, Hs. simpl. unfold byAreaDesc at 1.
    destruct (0 <? area best - area c) eqn:Hcmp.
    + apply Z.ltb_lt in Hcmp.
      exists best, (insertSorted byAreaDesc c rest). split; [reflexivity|].
      destruct Hfirst as (before & after & Hl & Hb & Ha).
      exists (c :: before), after. rewrite Hl. repeat split; auto.
      intros e [<- | Hin]; [lia | auto].
    + apply Z.ltb_ge in Hcmp.
      exists c, (best :: rest). split; [reflexivity|].
      exists [], (d :: l'). repeat split; [intros e []|].
      intros e Hin.
      pose proof (firstOfGreatestArea_bound _ _ _ Hfirst Hin). lia.
Qed.

(** C5. For every non-empty list of surviving candidates, the sort at
    line 313 puts first a candidate of greatest area, and among the
    candidates of that area the one found first; [pickBest] returns its
    rectangle. *)
Theorem selection_picks_first_largest `{Engine}
    (candidates : list Candidate) (w : World) :
  candidates <> [] ->
  exists best,
    firstOfGreatestArea candidates best
    /\ hd_error (sort byAreaDesc candidates) = Some best
    /\ fst (pickBest candidates w) = Returned (rect best).
Proof.
  intros Hne.
  destruct (sort_head_firstOfGreatestArea candidates Hne)
    as (best & rest & Hs & Hfirst).
  exists best. split; [assumption|].
  unfold pickBest. rewrite Hs. split; reflexivity.
Qed.

Lemma selection_picks_first_largest_witness :
  let r1 := mkRect 0 0 10 10 in
  let r2 := mkRect 50 50 20 20 in
  let r3 := mkRect 90 0 20 20 in
  let l := [mkCandidate 100 r1; mkCandidate 400 r2; mkCandidate 400 r3] in
  l <> []
  /\ exists best,
      firstOfGreatestArea l best
      /\ hd_error (sort byAreaDesc l) = Some best
      /\ fst (@pickBest (Scenario.engine []) l (Scenario.start []))
         = Returned (rect best).
Proof.
  intros r1 r2 r3 l. split; [discriminate|].
  apply (@selection_picks_first_largest (Scenario.engine []) l
           (Scenario.start [])).
  discriminate.
Defined.

Example tie_goes_to_first_found :
  map rect (sort byAreaDesc
              [mkCandidate 100 (mkRect 0 0 10 10);
               mkCandidate 400 (mkRect 50 50 20 20);
               mkCandidate 400 (mkRect 90 0 20 20)])
  = [mkRect 50 50 20 20; mkRect 90 0 20 20; mkRect 0 0 10 10].
Proof. reflexivity. Qed.

(** ** Manual rotation *)

(** C10. In a state without a processed image [handleRotate] returns at
    once: status, images, file, logs and the states shown to the caller
    are what they were. *)
Theorem rotate_without_image_is_noop `{Engine}
    (direction : string) (w : World) :
  processedImage (present w) = None ->
  handleRotate direction w = (Returned tt, w).
Proof.
  intros Hnone. unfold handleRotate, bind, getState. cbn.
  rewrite Hnone. reflexivity.
Qed.

Lemma rotate_without_image_is_noop_witness :
  processedImage (present (Scenario.start [])) = None
  /\ @handleRotate (Scenario.engine []) "left"%string (Scenario.start [])
     = (Returned tt, Scenario.start []).
Proof.
  split; [reflexivity|].
  apply (@rotate_without_image_is_noop (Scenario.engine []) "left"%string
           (Scenario.start [])).
  reflexivity.
Defined.

(** What one rotation leaves in the state. *)
Lemma handleRotate_with_image `{Engine}
    (direction : string) (w : World) (img : Image) :
  processedImage (present w) = Some img ->
  let code := if String.eqb direction "left" then ROTATE_90_COUNTERCLOCKWISE
              else ROTATE_90_CLOCKWISE in
  let a := present w in
  let shown := mkAppState processing (logs a) (file a) (originalImage a)
                 (Some img) in
  let final := mkAppState (status a) (logs a) (file a) (originalImage a)
                 (Some (rotate img code)) in
  handleRotate direction w
  = (Returned tt, mkWorld final (history w ++ [shown] ++ [final])).
Proof.
  intros Himg. unfold handleRotate, bind, getState. cbn.
  rewrite Himg. unfold setStatus. cbn. rewrite Himg, <- app_assoc. reflexivity.
Qed.

(** C7. Rotating the processed image left and then right gives an image
    of the original width and height (and, in the model, of the original
    pixels), under the status the state had before. *)
Theorem rotate_left_then_right_restores_dimensions `{Engine}
    (w : World) (img : Image) :
  processedImage (present w) = Some img ->
  let w2 := snd (handleRotate "right" (snd (handleRotate "left" w))) in
  exists img',
    processedImage (present w2) = Some img'
    /\ cols img' = cols img
    /\ rows img' = rows img
    /\ (forall i j, at_ img' i j = at_ img i j)
    /\ status (present w2) = status (present w).
Proof.
  intros Himg.
  rewrite (handleRotate_with_image "left" w img Himg). cbn [snd].
  erewrite handleRotate_with_image by reflexivity. cbn.
  eexists. split; [reflexivity|]. cbn.
  repeat split. intros i j. f_equal. lia.
Qed.

Lemma rotate_left_then_right_restores_dimensions_witness :
  let E := Scenario.engine [] in
  let w := snd (@handleFileUpload E (Some (Scenario.png 1000 1400))
                  (Scenario.start [])) in
  let img := @resize E (Scenario.page 1000 1400) (mkSize 1200 1800) in
  processedImage (present w) = Some img
  /\ exists img',
      processedImage
        (present (snd (@handleRotate E "right"
                         (snd (@handleRotate E "left" w))))) = Some img'
      /\ cols img' = cols img
      /\ rows img' = rows img
      /\ (forall i j, at_ img' i j = at_ img i j)
      /\ status (present (snd (@handleRotate E "right"
                                 (snd (@handleRotate E "left" w)))))
         = status (present w).
Proof.
  intros E w img. split; [reflexivity|].
  apply (@rotate_left_then_right_restores_dimensions E w img).
  reflexivity.
Defined.

Example one_rotation_swaps_dimensions :
  let E := Scenario.engine [] in
  let w := snd (@handleFileUpload E (Some (Scenario.png 1000 1400))
                  (Scenario.start [])) in
  option_map (fun m => (cols m, rows m))
    (processedImage (present (snd (@handleRotate E "left" w))))
  = Some (1800, 1200).
Proof. reflexivity. Qed.

(** ** What the pipeline stages do to the state *)

(** The world [w] with [new] appended to its log and nothing else
    changed. *)
Definition logged `{Engine} (w : World) (new : list string) : World :=
  let a := present w in
  mkWorld (mkAppState (status a) (logs a ++ new) (file a) (originalImage a)
             (processedImage a))
          (history w).

Lemma logged_nil `{Engine} (w : World) : logged w [] = w.
Proof.
  destruct w as [[st lg f oi p] h]. unfold logged. cbn.
  now rewrite app_nil_r.
Qed.

Lemma logged_logged `{Engine} (w : World) (l1 l2 : list string) :
  logged (logged w l1) l2 = logged w (l1 ++ l2).
Proof. unfold logged. cbn. now rewrite app_assoc. Qed.

Lemma emitted_logged `{Engine} (w : World) (new : list string) :
  emitted w (logged w new) = new.
Proof.
  unfold emitted, logged. cbn.
  rewrite skipn_app, skipn_all, Nat.sub_diag. reflexivity.
Qed.

Lemma addLog_run `{Engine} (msg : string) (w : World) :
  addLog msg w = (Returned tt, logged w [msg]).
Proof. reflexivity. Qed.

Lemma bind_run `{Engine} {A B} (m : M A) (k : A -> M B) (w : World) :
  bind m k w = match m w with
               | (Returned a, w') => k a w'
               | (Threw e, w') => (Threw e, w')
               end.
Proof. reflexivity. Qed.

(** The page ratio lies strictly between 0.4 and 2.5. *)
Definition pageRatioInWindow (pageWidth pageHeight : Z) : Prop :=
  pageHeight <> 0
  /\ (4 # 10 < inject_Z pageWidth / inject_Z pageHeight)%Q
  /\ (inject_Z pageWidth / inject_Z pageHeight < 25 # 10)%Q.

Lemma fallback_test_spec (pageWidth pageHeight : Z) :
  JS.gtb (JS.div pageWidth pageHeight) (4 # 10)
  && JS.ltb (JS.div pageWidth pageHeight) (25 # 10) = true
  <-> pageRatioInWindow pageWidth pageHeight.
Proof.
  unfold pageRatioInWindow, JS.div.
  destruct (pageHeight =? 0) eqn:Hz.
  - apply Z.eqb_eq in Hz. split.
    + destruct (0 <? pageWidth); [|destruct (pageWidth <? 0)];
        cbn; intro Hb; discriminate.
    + intros [Hne _]. contradiction.
  - apply Z.eqb_neq in Hz. cbn [JS.gtb JS.ltb].
    rewrite andb_true_iff, !Qltb_true. tauto.
Qed.

Lemma gatherCandidates_survivors `{Engine}
    (src : Image) (contours : list Rect) (w : World) :
  collectCandidates (cols src * rows src) contours <> [] ->
  gatherCandidates src contours w
  = (Returned (collectCandidates (cols src * rows src) contours), w).
Proof.
  intros Hne. unfold gatherCandidates.
  destruct (collectCandidates (cols src * rows src) contours);
    [congruence | reflexivity].
Qed.

Lemma gatherCandidates_fallback `{Engine}
    (src : Image) (contours : list Rect) (w : World) :
  collectCandidates (cols src * rows src) contours = [] ->
  pageRatioInWindow (cols src) (rows src) ->
  gatherCandidates src contours w
  = (Returned [mkCandidate (cols src * rows src) (fullRect src)],
     logged w
       ["No specific label contour found. Checking for fallback..."%string;
        FALLBACK_TRIGGERED]).
Proof.
  intros He Hwin. apply fallback_test_spec in Hwin.
  unfold gatherCandidates. rewrite He. cbn [List.length Nat.eqb].
  rewrite bind_run, addLog_run. cbv zeta. rewrite Hwin.
  rewrite bind_run, addLog_run. unfold ret.
  now rewrite logged_logged.
Qed.

Lemma gatherCandidates_fails `{Engine}
    (src : Image) (contours : list Rect) (w : World) :
  collectCandidates (cols src * rows src) contours = [] ->
  ~ pageRatioInWindow (cols src) (rows src) ->
  gatherCandidates src contours w
  = (Threw NoLabelDetected,
     logged w
       ["No specific label contour found. Checking for fallback..."%string]).
Proof.
  intros He Hout. unfold gatherCandidates. rewrite He.
  cbn [List.length Nat.eqb]. rewrite bind_run, addLog_run. cbv zeta.
  destruct (JS.gtb _ _ && JS.ltb _ _) eqn:Hb; [|reflexivity].
  apply fallback_test_spec in Hb. contradiction.
Qed.

Lemma pickBest_run `{Engine}
    (candidates : list Candidate) (best : Candidate) (rest : list Candidate) :
  sort byAreaDesc candidates = best :: rest ->
  exists msg,
    msg <> FALLBACK_TRIGGERED
    /\ forall w, pickBest candidates w = (Returned (rect best), logged w [msg]).
Proof.
  intros Hs. unfold pickBest. rewrite Hs. eexists. split.
  2:{ intros w. rewrite bind_run, addLog_run. reflexivity. }
  cbn. unfold FALLBACK_TRIGGERED. discriminate.
Qed.

(** The three ways [locateLabel] can go. *)
Inductive Located `{Engine} (src : Image) : Prop :=
| BySelection (best : Candidate) (new : list string)
    (Hsurv : collectCandidates (cols src * rows src) (contourRects src) <> [])
    (Hbest : hd_error (sort byAreaDesc
               (collectCandidates (cols src * rows src) (contourRects src)))
             = Some best)
    (Hlog : ~ In FALLBACK_TRIGGERED new)
    (Hrun : forall w,
        locateLabel src w = (Returned (rect best), logged w new))
| ByFallback (new : list string)
    (Hsurv : collectCandidates (cols src * rows src) (contourRects src) = [])
    (Hwin : pageRatioInWindow (cols src) (rows src))
    (Hlog : In FALLBACK_TRIGGERED new)
    (Hrun : forall w,
        locateLabel src w = (Returned (fullRect src), logged w new))
| NotLocated (new : list string)
    (Hsurv : collectCandidates (cols src * rows src) (contourRects src) = [])
    (Hwin : ~ pageRatioInWindow (cols src) (rows src))
    (Hlog : ~ In FALLBACK_TRIGGERED new)
    (Hrun : forall w,
        locateLabel src w = (Threw NoLabelDetected, logged w new)).

Lemma pageRatioInWindow_dec (pageWidth pageHeight : Z) :
  pageRatioInWindow pageWidth pageHeight
  \/ ~ pageRatioInWindow pageWidth pageHeight.
Proof.
  destruct (JS.gtb (JS.div pageWidth pageHeight) (4 # 10)
            && JS.ltb (JS.div pageWidth pageHeight) (25 # 10)) eqn:Hb.
  - left. now apply fallback_test_spec.
  - right. intro Hwin. apply fallback_test_spec in Hwin. congruence.
Qed.

Lemma locateLabel_cases `{Engine} (src : Image) : Located src.
Proof.
  set (found := ("Found " ++ JS.toString (Z.of_nat (List.length (contourRects src)))
                 ++ " potential contours.")%string).
  assert (Hfound : found <> FALLBACK_TRIGGERED)
    by (unfold found, FALLBACK_TRIGGERED; cbn; discriminate).
  set (checking :=
         "No specific label contour found. Checking for fallback..."%string).
  assert (Hno : checking <> FALLBACK_TRIGGERED)
    by (unfold FALLBACK_TRIGGERED; discriminate).
  destruct (collectCandidates (cols src * rows src) (contourRects src))
    as [|c cs] eqn:Hsurv.
  - destruct (pageRatioInWindow_dec (cols src) (rows src)) as [Hwin | Hout].
    + destruct (pickBest_run [mkCandidate (cols src * rows src) (fullRect src)]
                  (mkCandidate (cols src * rows src) (fullRect src)) [])
        as (msg & Hmsg & Hpick); [reflexivity|].
      eapply ByFallback with (new := [found; checking; FALLBACK_TRIGGERED; msg]);
        auto.
      * right. right. left. reflexivity.
      * intros w. unfold locateLabel. rewrite bind_run, addLog_run.
        rewrite bind_run, (gatherCandidates_fallback _ _ _ Hsurv Hwin).
        rewrite Hpick, !logged_logged. reflexivity.
    + eapply NotLocated with (new := [found; checking]); auto.
      * intros Hin. destruct Hin as [Heq | [Heq | []]];
          [exact (Hfound Heq) | exact (Hno Heq)].
      * intros w. unfold locateLabel. rewrite bind_run, addLog_run.
        rewrite bind_run, (gatherCandidates_fails _ _ _ Hsurv Hout).
        rewrite logged_logged. reflexivity.
  - assert (Hne : collectCandidates (cols src * rows src) (contourRects src)
                  <> []) by (rewrite Hsurv; discriminate).
    destruct (sort_head_firstOfGreatestArea _ Hne) as (best & rest & Hs & _).
    destruct (pickBest_run _ _ _ Hs) as (msg & Hmsg & Hpick).
    eapply BySelection with (best := best) (new := [found; msg]); auto.
    * rewrite Hs. reflexivity.
    * intros Hin. destruct Hin as [Heq | [Heq | []]];
        [exact (Hfound Heq) | exact (Hmsg Heq)].
    * intros w. unfold locateLabel. rewrite bind_run, addLog_run.
      rewrite bind_run, (gatherCandidates_survivors _ _ _ Hne).
      rewrite Hpick, logged_logged. reflexivity.
Qed.

Lemma normalizeOrientation_run `{Engine} (crop : Image) :
  exists new,
    ~ In FALLBACK_TRIGGERED new
    /\ forall w,
        normalizeOrientation crop w
        = (Returned (if cols crop >? rows crop
                     then rotate crop ROTATE_90_CLOCKWISE else crop),
           logged w new).
Proof.
  unfold normalizeOrientation. destruct (cols crop >? rows crop).
  - eexists [_]. split.
    2:{ intros w. rewrite bind_run, addLog_run. reflexivity. }
    unfold FALLBACK_TRIGGERED. cbn. intros [Heq | []]. discriminate.
  - exists []. split; [tauto|]. intros w. now rewrite logged_nil.
Qed.

(** The canvas handed to the caller for the crop at [bestRect]. *)
Definition outputFor `{Engine} (src : Image) (bestRect : Rect) : Image :=
  let crop := roi src bestRect in
  resize (if cols crop >? rows crop
          then rotate crop ROTATE_90_CLOCKWISE else crop)
         (mkSize (TARGET_WIDTH CONFIG) (TARGET_HEIGHT CONFIG)).

(** The state after a successful [processImage]. *)
Definition succeeded `{Engine} (w : World) (new : list string) (out : Image)
  : World :=
  let a := present w in
  let shown := mkAppState success (logs a ++ new) (file a) (originalImage a)
                 (Some out) in
  mkWorld (mkAppState success (logs a ++ new ++ ["Processing Complete!"%string])
             (file a) (originalImage a) (Some out))
          (history w ++ [shown]).

Lemma getImageData_run `{Engine} (img : Image) (w : World) :
  cols img <> 0 -> rows img <> 0 ->
  getImageData img w = (Returned (drawnOverWhite img), w).
Proof.
  intros Hc Hr. unfold getImageData.
  rewrite (proj2 (Z.eqb_neq _ _) Hc), (proj2 (Z.eqb_neq _ _) Hr).
  reflexivity.
Qed.

Lemma getImageData_empty `{Engine} (img : Image) (w : World) :
  cols img = 0 \/ rows img = 0 ->
  getImageData img w = (Threw IndexSizeError, w).
Proof.
  intros Hz. unfold getImageData.
  assert (Hb : (cols img =? 0) || (rows img =? 0) = true).
  { apply orb_true_iff. rewrite !Z.eqb_eq. exact Hz. }
  rewrite Hb. reflexivity.
Qed.

Lemma processImage_empty `{Engine} (imageSrc : Image) (w : World) :
  cols imageSrc = 0 \/ rows imageSrc = 0 ->
  processImage imageSrc w
  = (Threw IndexSizeError,
     logged w ["Starting Computer Vision analysis..."%string]).
Proof.
  intros Hz. unfold processImage.
  rewrite bind_run, addLog_run, bind_run, (getImageData_empty _ _ Hz).
  reflexivity.
Qed.

Lemma processImage_located `{Engine}
    (imageSrc : Image) (bestRect : Rect) (new : list string) :
  cols imageSrc <> 0 -> rows imageSrc <> 0 ->
  (forall w, locateLabel (drawnOverWhite imageSrc) w
             = (Returned bestRect, logged w new)) ->
  exists new',
    (In FALLBACK_TRIGGERED new' <-> In FALLBACK_TRIGGERED new)
    /\ forall w,
        processImage imageSrc w
        = (Returned tt,
           succeeded w new' (outputFor (drawnOverWhite imageSrc) bestRect)).
Proof.
  intros Hc Hr Hloc.
  destruct (normalizeOrientation_run (roi (drawnOverWhite imageSrc) bestRect))
    as (turn & Hturn & Hnorm).
  exists (["Starting Computer Vision analysis..."%string] ++ new ++ turn).
  split.
  - rewrite !in_app_iff. cbn. unfold FALLBACK_TRIGGERED at 1.
    split; [intros [[Heq | []] | [Hin | Hin]] | intros Hin]; auto;
      try discriminate; contradiction.
  - intros w. unfold processImage. rewrite bind_run, addLog_run.
    rewrite bind_run, (getImageData_run _ _ Hc Hr).
    rewrite bind_run, Hloc, bind_run, Hnorm, !logged_logged.
    unfold succeeded, outputFor, logged, bind, setProcessedImage, setStatus,
      addLog, setLogs, modify.
    cbn [present history status logs file originalImage processedImage].
    rewrite <- !app_assoc. reflexivity.
Qed.

Lemma processImage_not_located `{Engine}
    (imageSrc : Image) (e : Error) (new : list string) :
  cols imageSrc <> 0 -> rows imageSrc <> 0 ->
  (forall w, locateLabel (drawnOverWhite imageSrc) w
             = (Threw e, logged w new)) ->
  forall w,
    processImage imageSrc w
    = (Threw e, logged w (["Starting Computer Vision analysis..."%string] ++ new)).
Proof.
  intros Hc Hr Hloc w. unfold processImage. rewrite bind_run, addLog_run.
  rewrite bind_run, (getImageData_run _ _ Hc Hr).
  rewrite bind_run, Hloc, logged_logged. reflexivity.
Qed.

Lemma emitted_succeeded `{Engine} (w : World) (new : list string) (out : Image) :
  emitted w (succeeded w new out) = new ++ ["Processing Complete!"%string].
Proof.
  unfold emitted, succeeded. cbn.
  rewrite skipn_app, skipn_all, Nat.sub_diag. reflexivity.
Qed.

(** ** The fallback *)



(** ** Output size *)

(** C3. A run of [processImage] that returns leaves a processed image
    whose width is [TARGET_WIDTH] (1200) and whose height is
    [TARGET_HEIGHT] (1800), whatever the input image, and sets the status
    to [success]. *)
Theorem output_has_target_dimensions `{Engine} (imageSrc : Image) (w : World) :
  fst (processImage imageSrc w) = Returned tt ->
  exists out,
    processedImage (present (snd (processImage imageSrc w))) = Some out
    /\ cols out = TARGET_WIDTH CONFIG
    /\ rows out = TARGET_HEIGHT CONFIG
    /\ cols out = 1200
    /\ rows out = 1800
    /\ status (present (snd (processImage imageSrc w))) = success.
Proof.
  destruct (Z.eq_dec (cols imageSrc) 0) as [Hc | Hc];
    [rewrite processImage_empty by auto; discriminate|].
  destruct (Z.eq_dec (rows imageSrc) 0) as [Hr | Hr];
    [rewrite processImage_empty by auto; discriminate|].
  destruct (locateLabel_cases (drawnOverWhite imageSrc)) as
    [best new Hsurv Hbest Hlog Hrun | new Hsurv Hwin Hlog Hrun
     | new Hsurv Hwin Hlog Hrun].
  - destruct (processImage_located imageSrc _ _ Hc Hr Hrun)
      as (new' & _ & Hp).
    rewrite Hp. intros _. eexists. split; [reflexivity|]. now cbn.
  - destruct (processImage_located imageSrc _ _ Hc Hr Hrun)
      as (new' & _ & Hp).
    rewrite Hp. intros _. eexists. split; [reflexivity|]. now cbn.
  - rewrite (processImage_not_located imageSrc _ _ Hc Hr Hrun). discriminate.
Qed.

Lemma output_has_target_dimensions_witness :
  let E := Scenario.engine [mkRect 200 200 1500 1000] in
  let run := @processImage E (Scenario.page 2400 3600)
               (Scenario.start [mkRect 200 200 1500 1000]) in
  fst run = Returned tt
  /\ exists out,
      processedImage (present (snd run)) = Some out
      /\ cols out = TARGET_WIDTH CONFIG
      /\ rows out = TARGET_HEIGHT CONFIG
      /\ cols out = 1200
      /\ rows out = 1800
      /\ status (present (snd run)) = success.
Proof.
  intros E run. split; [reflexivity|].
  apply (@output_has_target_dimensions E (Scenario.page 2400 3600)
           (Scenario.start [mkRect 200 200 1500 1000])).
  reflexivity.
Defined.

(** ** Orientation *)

(** C4. A crop wider than tall is rotated by 90 degrees clockwise: the
    result has the crop's sides swapped, is at least as tall as wide,
    and shows the crop's pixel (r, c) at row c, column [rows - 1 - r].
    A crop at most as wide as tall is returned as it is, and nothing is
    logged. *)
Theorem landscape_crop_is_rotated_clockwise `{Engine} (crop : Image) (w : World) :
  (cols crop > rows crop ->
   let out := rotate crop ROTATE_90_CLOCKWISE in
   fst (normalizeOrientation crop w) = Returned out
   /\ cols out = rows crop
   /\ rows out = cols crop
   /\ rows out >= cols out
   /\ (forall r c, at_ out c (rows crop - 1 - r) = at_ crop r c))
  /\ (cols crop <= rows crop ->
      normalizeOrientation crop w = (Returned crop, w)).
Proof.
  unfold normalizeOrientation. split.
  - intros Hwide. rewrite (proj2 (Z.gtb_gt _ _) Hwide). cbn.
    repeat split; try lia. intros r c. f_equal. lia.
  - intros Htall. rewrite Z.gtb_ltb, (proj2 (Z.ltb_ge _ _) Htall).
    reflexivity.
Qed.

Lemma landscape_crop_is_rotated_clockwise_witness :
  let E := Scenario.engine [] in
  let wide := Scenario.page 1500 1000 in
  let tall := Scenario.page 1000 1500 in
  (cols wide > rows wide
   /\ fst (@normalizeOrientation E wide (Scenario.start []))
      = Returned (rotate wide ROTATE_90_CLOCKWISE)
   /\ cols (rotate wide ROTATE_90_CLOCKWISE) = 1000
   /\ rows (rotate wide ROTATE_90_CLOCKWISE) = 1500)
  /\ (cols tall <= rows tall
      /\ @normalizeOrientation E tall (Scenario.start [])
         = (Returned tall, Scenario.start [])).
Proof.
  intros E wide tall.
  pose proof (@landscape_crop_is_rotated_clockwise E wide (Scenario.start []))
    as (Hrot & _).
  pose proof (@landscape_crop_is_rotated_clockwise E tall (Scenario.start []))
    as (_ & Hkeep).
  split.
  - split; [reflexivity|].
    destruct (Hrot eq_refl) as (Hret & Hc & Hr & _).
    split; [exact Hret | split; [exact Hc | exact Hr]].
  - split; [discriminate|]. apply Hkeep. discriminate.
Defined.

(** ** The scenarios of the specification *)

(** A 2400 x 3600 page with one blob at (200, 200, 1000, 1500): the
    blob is selected, not rotated, and resized to 1200 x 1800. *)
Example scenario_portrait_blob :
  let blob := mkRect 200 200 1000 1500 in
  let E := Scenario.engine [blob] in
  let src := Scenario.page 2400 3600 in
  let w := Scenario.start [blob] in
  fst (@locateLabel E src w) = Returned blob
  /\ fst (@normalizeOrientation E (roi src blob) w) = Returned (roi src blob)
  /\ option_map (fun m => (cols m, rows m))
       (processedImage (present (snd (@processImage E src w))))
     = Some (1200, 1800).
Proof. repeat split. Qed.

(** The same page with a 1500 x 1000 blob: the crop is rotated
    clockwise before it is resized to 1200 x 1800. *)
Example scenario_landscape_blob :
  let blob := mkRect 200 200 1500 1000 in
  let E := Scenario.engine [blob] in
  let src := Scenario.page 2400 3600 in
  let w := Scenario.start [blob] in
  fst (@locateLabel E src w) = Returned blob
  /\ fst (@normalizeOrientation E (roi src blob) w)
     = Returned (rotate (roi src blob) ROTATE_90_CLOCKWISE)
  /\ option_map (fun m => (cols m, rows m))
       (processedImage (present (snd (@processImage E src w))))
     = Some (1200, 1800).
Proof. repeat split. Qed.

(** ** Determinism *)

(** A run either returns with a processed image or throws having
    only logged; which, and with what, does not depend on the state. *)
Lemma processImage_run `{Engine} (imageSrc : Image) :
  (exists new out,
      forall w, processImage imageSrc w = (Returned tt, succeeded w new out))
  \/ (exists e new,
        forall w, processImage imageSrc w = (Threw e, logged w new)).
Proof.
  destruct (Z.eq_dec (cols imageSrc) 0) as [Hc | Hc].
  { right. do 2 eexists. intros w. apply processImage_empty. auto. }
  destruct (Z.eq_dec (rows imageSrc) 0) as [Hr | Hr].
  { right. do 2 eexists. intros w. apply processImage_empty. auto. }
  destruct (locateLabel_cases (drawnOverWhite imageSrc)) as
    [best new Hsurv Hbest Hlog Hrun | new Hsurv Hwin Hlog Hrun
     | new Hsurv Hwin Hlog Hrun].
  - destruct (processImage_located imageSrc _ _ Hc Hr Hrun)
      as (new' & _ & Hp).
    left. eauto.
  - destruct (processImage_located imageSrc _ _ Hc Hr Hrun)
      as (new' & _ & Hp).
    left. eauto.
  - right. do 2 eexists.
    exact (processImage_not_located imageSrc _ _ Hc Hr Hrun).
Qed.

Lemma locateLabel_run `{Engine} (src : Image) :
  exists o new, forall w, locateLabel src w = (o, logged w new).
Proof.
  destruct (locateLabel_cases src) as
    [best new Hsurv Hbest Hlog Hrun | new Hsurv Hwin Hlog Hrun
     | new Hsurv Hwin Hlog Hrun]; eauto.
Qed.

(** C9. Two runs of [processImage] on the same image, from any two
    states of the component, select the same rectangle, return or throw
    alike, log the same lines and, when they return, leave the same
    processed image: nothing of the earlier state enters the result. *)
Theorem pipeline_is_deterministic `{Engine} (imageSrc : Image) (w1 w2 : World) :
  let run1 := processImage imageSrc w1 in
  let run2 := processImage imageSrc w2 in
  fst (locateLabel (drawnOverWhite imageSrc) w1)
  = fst (locateLabel (drawnOverWhite imageSrc) w2)
  /\ fst run1 = fst run2
  /\ emitted w1 (snd run1) = emitted w2 (snd run2)
  /\ ((exists out,
         fst run1 = Returned tt
         /\ processedImage (present (snd run1)) = Some out
         /\ processedImage (present (snd run2)) = Some out
         /\ status (present (snd run1)) = success
         /\ status (present (snd run2)) = success)
      \/ (exists e new,
            fst run1 = Threw e
            /\ snd run1 = logged w1 new
            /\ snd run2 = logged w2 new)).
Proof.
  cbv zeta. split.
  { destruct (locateLabel_run (drawnOverWhite imageSrc)) as (o & new & Hrun).
    now rewrite !Hrun. }
  destruct (processImage_run imageSrc)
    as [(new & out & Hp) | (e & new & Hp)]; rewrite !Hp; cbn [fst snd].
  - rewrite !emitted_succeeded. repeat (split; [reflexivity|]).
    left. eexists. repeat (split; [reflexivity|]). reflexivity.
  - rewrite !emitted_logged. repeat (split; [reflexivity|]).
    right. do 2 eexists. repeat (split; [reflexivity|]). reflexivity.
Qed.

(** ** Bounds on the candidates *)

Definition areaWithinBounds (totalArea : Z) (c : Candidate) : Prop :=
  (MIN_AREA_RATIO CONFIG * inject_Z totalArea <= inject_Z (area c))%Q
  /\ (inject_Z (area c) <= MAX_AREA_RATIO CONFIG * inject_Z totalArea)%Q.

Definition ratioWithinBounds (c : Candidate) : Prop :=
  height (rect c) <> 0
  /\ (2 # 10 <= inject_Z (width (rect c)) / inject_Z (height (rect c)))%Q
  /\ (inject_Z (width (rect c)) / inject_Z (height (rect c)) <= 4)%Q.

Lemma areaRejected_false (totalArea a : Z) :
  areaRejected totalArea a = false ->
  (MIN_AREA_RATIO CONFIG * inject_Z totalArea <= inject_Z a)%Q
  /\ (inject_Z a <= MAX_AREA_RATIO CONFIG * inject_Z totalArea)%Q.
Proof.
  unfold areaRejected. rewrite orb_false_iff, !Qltb_false.
  intros [Hlo Hhi]. split.
  - now rewrite Qmult_comm.
  - now rewrite Qmult_comm.
Qed.

Lemma areaRejected_zero (totalArea : Z) :
  0 < totalArea -> areaRejected totalArea 0 = true.
Proof.
  intros Hpos. unfold areaRejected. apply orb_true_iff. left.
  apply Qltb_true. unfold Qlt. cbn. lia.
Qed.

Lemma ratioRejected_false (r : Rect) :
  ratioRejected r = false ->
  (height r = 0 /\ width r = 0)
  \/ (height r <> 0
      /\ (2 # 10 <= inject_Z (width r) / inject_Z (height r))%Q
      /\ (inject_Z (width r) / inject_Z (height r) <= 4)%Q).
Proof.
  unfold ratioRejected, JS.div. cbv zeta.
  destruct (height r =? 0) eqn:Hz.
  - apply Z.eqb_eq in Hz.
    destruct (0 <? width r) eqn:Hp; [cbn; discriminate|].
    destruct (width r <? 0) eqn:Hn; [cbn; discriminate|].
    apply Z.ltb_ge in Hp, Hn. intros _. left. lia.
  - apply Z.eqb_neq in Hz. cbn [JS.ltb JS.gtb].
    rewrite orb_false_iff, !Qltb_false. tauto.
Qed.

Lemma collectCandidates_In (totalArea : Z) (contours : list Rect) (c : Candidate) :
  In c (collectCandidates totalArea contours) ->
  In (rect c) contours
  /\ area c = width (rect c) * height (rect c)
  /\ areaRejected totalArea (area c) = false
  /\ ratioRejected (rect c) = false.
Proof.
  induction contours as [|r rest IH]; cbn; [tauto|].
  destruct (areaRejected totalArea (width r * height r)) eqn:Ha.
  - intros Hin. specialize (IH Hin). tauto.
  - destruct (ratioRejected r) eqn:Hr.
    + intros Hin. specialize (IH Hin). tauto.
    + intros [<- | Hin]; [cbn; auto | specialize (IH Hin); tauto].
Qed.

Lemma collectCandidates_bounds (totalArea : Z) (contours : list Rect) (c : Candidate) :
  0 < totalArea ->
  In c (collectCandidates totalArea contours) ->
  areaWithinBounds totalArea c /\ ratioWithinBounds c.
Proof.
  intros Hpos Hin.
  destruct (collectCandidates_In _ _ _ Hin) as (_ & Harea & Ha & Hr).
  split; [now apply areaRejected_false|].
  destruct (ratioRejected_false _ Hr) as [[Hh Hw] | Hfin]; [|exact Hfin].
  rewrite Harea, Hh, Z.mul_0_r, (areaRejected_zero _ Hpos) in Ha.
  discriminate.
Qed.

Lemma fallback_candidate_bounds `{Engine} (src : Image) :
  0 < cols src * rows src ->
  pageRatioInWindow (cols src) (rows src) ->
  let c := mkCandidate (cols src * rows src) (fullRect src) in
  ratioWithinBounds c /\ ~ areaWithinBounds (cols src * rows src) c.
Proof.
  intros Hpos (Hne & Hlo & Hhi). cbv zeta. split.
  - unfold ratioWithinBounds. cbn. split; [exact Hne|]. split.
    + apply Qlt_le_weak. eapply Qle_lt_trans; [|exact Hlo]. discriminate.
    + apply Qlt_le_weak. eapply Qlt_le_trans; [exact Hhi|]. discriminate.
  - intros [_ Hmax]. unfold Qle, Qmult, inject_Z in Hmax.
    cbn [Qnum Qden area MAX_AREA_RATIO CONFIG Pos.mul] in Hmax. lia.
Qed.

(** C2, as the code has it.  On a page of positive size, every
    candidate that reaches the sort has a ratio width/height between
    0.2 and 4.0, and its area is between 1% and 99% of the page area
    unless it is the candidate made by the fallback: that one is the
    whole page, its area is the page area, above the 99% bound. *)
Theorem candidates_within_bounds_except_fallback `{Engine}
    (src : Image) (contours : list Rect) (w : World)
    (candidates : list Candidate) (c : Candidate) :
  0 < cols src -> 0 < rows src ->
  fst (gatherCandidates src contours w) = Returned candidates ->
  In c candidates ->
  let totalArea := cols src * rows src in
  ratioWithinBounds c
  /\ (areaWithinBounds totalArea c
      \/ (collectCandidates totalArea contours = []
          /\ pageRatioInWindow (cols src) (rows src)
          /\ c = mkCandidate totalArea (fullRect src)
          /\ ~ areaWithinBounds totalArea c)).
Proof.
  intros Hc Hr Hrun Hin. cbv zeta.
  assert (Hpos : 0 < cols src * rows src) by lia.
  destruct (collectCandidates (cols src * rows src) contours) as [|c0 cs] eqn:Hs.
  - destruct (pageRatioInWindow_dec (cols src) (rows src)) as [Hwin | Hout].
    + rewrite (gatherCandidates_fallback _ _ _ Hs Hwin) in Hrun.
      injection Hrun as <-. destruct Hin as [<- | []].
      destruct (fallback_candidate_bounds src Hpos Hwin) as [Hratio Harea].
      split; [exact Hratio|]. right. auto.
    + rewrite (gatherCandidates_fails _ _ _ Hs Hout) in Hrun. discriminate.
  - rewrite gatherCandidates_survivors in Hrun by (rewrite Hs; discriminate).
    injection Hrun as <-.
    destruct (collectCandidates_bounds _ _ _ Hpos Hin). auto.
Qed.

Lemma candidates_within_bounds_except_fallback_witness :
  let blob := mkRect 200 200 1000 1500 in
  let E := Scenario.engine [blob] in
  let src := Scenario.page 2400 3600 in
  let c := mkCandidate 1500000 blob in
  (0 < cols src /\ 0 < rows src
   /\ fst (@gatherCandidates E src [blob] (Scenario.start [blob])) = Returned [c]
   /\ In c [c])
  /\ ratioWithinBounds c
  /\ (areaWithinBounds (cols src * rows src) c
      \/ (collectCandidates (cols src * rows src) [blob] = []
          /\ pageRatioInWindow (cols src) (rows src)
          /\ c = mkCandidate (cols src * rows src) (@fullRect E src)
          /\ ~ areaWithinBounds (cols src * rows src) c)).
Proof.
  intros blob E src c.
  assert (Hc : 0 < cols src) by reflexivity.
  assert (Hr : 0 < rows src) by reflexivity.
  assert (Hrun : fst (@gatherCandidates E src [blob] (Scenario.start [blob]))
                 = Returned [c]) by reflexivity.
  assert (Hin : In c [c]) by (left; reflexivity).
  split; [repeat split; assumption|].
  exact (@candidates_within_bounds_except_fallback E src [blob]
           (Scenario.start [blob]) [c] c Hc Hr Hrun Hin).
Defined.

(** C2, as the specification words it, fails on a blank 1000 x 1400
    page: the fallback candidate reaches the sort and is selected with an
    area of 100% of the page. *)
Lemma fallback_candidate_exceeds_area_bound :
  let E := Scenario.engine [] in
  let src := Scenario.page 1000 1400 in
  let c := mkCandidate 1400000 (mkRect 0 0 1000 1400) in
  fst (@gatherCandidates E src (@contourRects E src) (Scenario.start []))
  = Returned [c]
  /\ fst (@locateLabel E src (Scenario.start [])) = Returned (rect c)
  /\ ~ areaWithinBounds (cols src * rows src) c.
Proof.
  intros E src c. split; [reflexivity|]. split; [reflexivity|].
  intros [_ Hmax]. vm_compute in Hmax. now apply Hmax.
Qed.

(** ** Zero-area images *)

(** The run throws an error that is neither of the two the component
    raises for a valid image (no label detected, unsupported type). *)
Definition signalsInvalidInput {A : Type} (o : Outcome A) : Prop :=
  exists e, o = Threw e /\ e <> NoLabelDetected /\ e <> UnsupportedInput.

(** C8. For an image of zero width or zero height the run throws at the
    canvas read of lines 245-246, before any detection: the caller gets
    the IndexSizeError raised for the empty input (not the error of a
    failed detection nor of an unsupported type), no processed image is
    set, and [processImage] leaves the status as it was. *)
Theorem zero_area_image_is_rejected `{Engine} (imageSrc : Image) (w : World) :
  cols imageSrc * rows imageSrc = 0 ->
  let run := processImage imageSrc w in
  signalsInvalidInput (fst run)
  /\ fst run = Threw IndexSizeError
  /\ processedImage (present (snd run)) = processedImage (present w)
  /\ status (present (snd run)) = status (present w)
  /\ history (snd run) = history w.
Proof.
  intros Hzero. cbv zeta.
  assert (Hz : cols imageSrc = 0 \/ rows imageSrc = 0) by lia.
  rewrite (processImage_empty imageSrc w Hz). cbn [fst snd].
  split; [|repeat split].
  exists IndexSizeError. split; [reflexivity|]. split; discriminate.
Qed.

Lemma zero_area_image_is_rejected_witness :
  let E := Scenario.engine [] in
  let empty := Scenario.page 0 1400 in
  let run := @processImage E empty (Scenario.start []) in
  cols empty * rows empty = 0
  /\ signalsInvalidInput (fst run)
  /\ fst run = Threw IndexSizeError
  /\ processedImage (present (snd run)) = None
  /\ status (present (snd run)) = ready
  /\ history (snd run) = [].
Proof.
  intros E empty run. split; [reflexivity|].
  apply (@zero_area_image_is_rejected E empty (Scenario.start [])).
  reflexivity.
Defined.

(** The caller of the pipeline turns the rejection into the error
    status. *)
Example zero_area_upload_ends_in_error :
  let E := Scenario.engine [] in
  let w := snd (@handleFileUpload E (Some (Scenario.png 0 1400))
                  (Scenario.start [])) in
  status (present w) = error
  /\ processedImage (present w) = None
  /\ last (logs (present w)) EmptyString
     = ("Error: " ++ IndexSizeError)%string.
Proof. vm_compute. repeat split. Qed.

(** ** Running a handler on a state *)

(** Loading the image source only adds to the log. *)
Lemma loadImageSrc_run `{Engine} (f : File) :
  exists o new, forall w, loadImageSrc f w = (o, logged w new).
Proof.
  unfold loadImageSrc. destruct (String.eqb (type f) "application/pdf").
  - unfold convertPdfToImage. destruct (getDocument f) as [e | pdf].
    + exists (Threw e), ["Detected PDF. Converting to image..."%string].
      intros w. reflexivity.
    + destruct (renderFirstPage pdf) as [e | img] eqn:Hpage.
      * exists (Threw e). eexists. intros w.
        rewrite bind_run, addLog_run. cbn [liftE]. unfold ret at 1.
        rewrite !bind_run, addLog_run, Hpage, logged_logged. reflexivity.
      * exists (Returned img). eexists. intros w.
        rewrite bind_run, addLog_run. cbn [liftE]. unfold ret at 1.
        rewrite !bind_run, addLog_run, Hpage, logged_logged. reflexivity.
  - destruct (String.prefix "image/" (type f)).
    + destruct (readFileAsDataURL f) as [e | img].
      * exists (Threw e). eexists. intros w.
        rewrite bind_run, addLog_run. reflexivity.
      * exists (Returned img). eexists. intros w.
        rewrite bind_run, addLog_run. reflexivity.
    + exists (Threw UnsupportedInput), []. intros w. now rewrite logged_nil.
Qed.

Ltac project_state :=
  cbn [present history status logs file originalImage processedImage fst snd].

(** Runs [handleFileUpload] up to the [try] block. *)
Ltac enter_upload w :=
  unfold handleFileUpload;
  rewrite bind_run;
  change (reset w) with
    (Returned tt,
     mkWorld (mkAppState ready ["Ready for new file."%string] None None None)
       (history w ++ [mkAppState ready (logs (present w)) None None None]));
  cbv iota beta; rewrite bind_run; unfold setFile at 1, modify at 1;
  project_state;
  rewrite bind_run; unfold setStatus at 1; project_state;
  rewrite bind_run, addLog_run; unfold logged at 1; project_state;
  rewrite <- (app_assoc (history w)); cbn [List.app];
  unfold tryCatch; rewrite bind_run.

(** * Further properties of the code *)

(** ** The filters in integer arithmetic (lines 279-288) *)

Lemma areaRejected_false_iff (totalArea a : Z) :
  areaRejected totalArea a = false
  <-> totalArea <= 100 * a /\ 100 * a <= 99 * totalArea.
Proof.
  unfold areaRejected. rewrite orb_false_iff, !Qltb_false.
  unfold Qle, Qmult, inject_Z.
  cbn [Qnum Qden MIN_AREA_RATIO MAX_AREA_RATIO CONFIG Pos.mul]. lia.
Qed.

Lemma ratioRejected_false_iff (r : Rect) :
  0 < height r ->
  ratioRejected r = false
  <-> height r <= 5 * width r /\ width r <= 4 * height r.
Proof.
  intros Hh. unfold ratioRejected, JS.div. cbv zeta.
  destruct (height r) as [|p|p] eqn:Hp; try lia.
  cbn [Z.eqb JS.ltb JS.gtb]. rewrite orb_false_iff, !Qltb_false.
  unfold Qle, Qdiv, Qmult, Qinv, inject_Z. cbn [Qnum Qden Pos.mul]. lia.
Qed.

Lemma collectCandidates_keeps (totalArea : Z) (contours : list Rect) (r : Rect) :
  In r contours ->
  areaRejected totalArea (width r * height r) = false ->
  ratioRejected r = false ->
  In (mkCandidate (width r * height r) r) (collectCandidates totalArea contours).
Proof.
  intros Hin Ha Hr. induction contours as [|r0 rest IH]; [contradiction|].
  cbn [collectCandidates]. cbv zeta. destruct Hin as [-> | Hin].
  - rewrite Ha, Hr. now left.
  - specialize (IH Hin).
    destruct (areaRejected totalArea (width r0 * height r0)); [exact IH|].
    destruct (ratioRejected r0); [exact IH | now right].
Qed.

(** X1. A contour of positive height survives the filter loop exactly
    when its bounding-box area lies between 1% and 99% of the page area
    and its width lies between a fifth of and four times its height, all
    four bounds included; no contour within the bounds is dropped. *)
Theorem contour_survives_iff_within_bounds
    (totalArea : Z) (contours : list Rect) (r : Rect) :
  0 < height r ->
  In (mkCandidate (width r * height r) r) (collectCandidates totalArea contours)
  <-> In r contours
      /\ totalArea <= 100 * (width r * height r)
      /\ 100 * (width r * height r) <= 99 * totalArea
      /\ height r <= 5 * width r
      /\ width r <= 4 * height r.
Proof.
  intros Hh. split.
  - intros Hin. apply collectCandidates_In in Hin.
    cbn [rect area] in Hin. destruct Hin as (Hr & _ & Ha & Hq).
    apply areaRejected_false_iff in Ha.
    apply (ratioRejected_false_iff r Hh) in Hq. tauto.
  - intros (Hin & Hlo & Hhi & Hq1 & Hq2).
    apply collectCandidates_keeps; [exact Hin | |].
    + apply areaRejected_false_iff. lia.
    + apply (ratioRejected_false_iff r Hh). lia.
Qed.

Lemma contour_survives_iff_within_bounds_witness :
  let onePercent := mkRect 0 0 10 50 in
  let tooWide := mkRect 0 0 41 10 in
  0 < height onePercent
  /\ (In (mkCandidate 500 onePercent)
        (collectCandidates 50000 [tooWide; onePercent])
      <-> In onePercent [tooWide; onePercent]
          /\ 50000 <= 100 * (10 * 50)
          /\ 100 * (10 * 50) <= 99 * 50000
          /\ 50 <= 5 * 10
          /\ 10 <= 4 * 50).
Proof.
  intros onePercent tooWide. split; [reflexivity|].
  apply (contour_survives_iff_within_bounds 50000 [tooWide; onePercent]
           onePercent).
  reflexivity.
Defined.

Example boundary_contour_is_kept :
  map rect (collectCandidates 50000 [mkRect 0 0 41 10; mkRect 0 0 10 50])
  = [mkRect 0 0 10 50].
Proof. reflexivity. Qed.

(** X2. The filter loop judges every contour on its own and keeps the
    survivors in extraction order: filtering two runs of contours one
    after the other is filtering their concatenation. *)
Theorem collectCandidates_app (totalArea : Z) (first second : list Rect) :
  collectCandidates totalArea (first ++ second)
  = collectCandidates totalArea first ++ collectCandidates totalArea second.
Proof.
  induction first as [|r rest IH]; [reflexivity|].
  cbn [List.app collectCandidates]. cbv zeta.
  destruct (areaRejected totalArea (width r * height r)); [exact IH|].
  destruct (ratioRejected r); [exact IH|].
  cbn [List.app]. now rewrite IH.
Qed.

(** ** The fallback window (lines 298-301) *)

Lemma pageRatioInWindow_iff (pageWidth pageHeight : Z) :
  0 < pageHeight ->
  pageRatioInWindow pageWidth pageHeight
  <-> 2 * pageHeight < 5 * pageWidth /\ 2 * pageWidth < 5 * pageHeight.
Proof.
  intros Hh. unfold pageRatioInWindow.
  destruct pageHeight as [|p|p] eqn:Hp; try lia.
  unfold Qlt, Qdiv, Qmult, Qinv, inject_Z. cbn [Qnum Qden Pos.mul].
  split; [intros (_ & Hlo & Hhi); lia | intros [Hlo Hhi]].
  split; [discriminate | lia].
Qed.

(** X3. The fallback test does not depend on the orientation of the
    page: a page of positive sides passes it exactly when the page with
    width and height exchanged does, and in integers the test is
    2h < 5w and 2w < 5h. *)
Theorem fallback_test_is_orientation_independent (pageWidth pageHeight : Z) :
  0 < pageWidth -> 0 < pageHeight ->
  (JS.gtb (JS.div pageWidth pageHeight) (4 # 10)
   && JS.ltb (JS.div pageWidth pageHeight) (25 # 10)
   = JS.gtb (JS.div pageHeight pageWidth) (4 # 10)
     && JS.ltb (JS.div pageHeight pageWidth) (25 # 10))
  /\ (JS.gtb (JS.div pageWidth pageHeight) (4 # 10)
      && JS.ltb (JS.div pageWidth pageHeight) (25 # 10) = true
      <-> 2 * pageHeight < 5 * pageWidth /\ 2 * pageWidth < 5 * pageHeight).
Proof.
  intros Hw Hh.
  pose proof (fallback_test_spec pageWidth pageHeight) as Hwh.
  pose proof (fallback_test_spec pageHeight pageWidth) as Hhw.
  rewrite (pageRatioInWindow_iff _ _ Hh) in Hwh.
  rewrite (pageRatioInWindow_iff _ _ Hw) in Hhw.
  split; [|exact Hwh].
  destruct (JS.gtb (JS.div pageWidth pageHeight) (4 # 10)
            && JS.ltb (JS.div pageWidth pageHeight) (25 # 10));
    destruct (JS.gtb (JS.div pageHeight pageWidth) (4 # 10)
              && JS.ltb (JS.div pageHeight pageWidth) (25 # 10));
    try reflexivity; exfalso.
  - assert (Hno : false = true) by (apply Hhw; apply and_comm, Hwh; reflexivity).
    discriminate.
  - assert (Hno : false = true) by (apply Hwh; apply and_comm, Hhw; reflexivity).
    discriminate.
Qed.

Lemma fallback_test_is_orientation_independent_witness :
  (0 < 1000 /\ 0 < 1400)
  /\ (JS.gtb (JS.div 1000 1400) (4 # 10) && JS.ltb (JS.div 1000 1400) (25 # 10)
      = JS.gtb (JS.div 1400 1000) (4 # 10)
        && JS.ltb (JS.div 1400 1000) (25 # 10))
  /\ (JS.gtb (JS.div 1000 1400) (4 # 10) && JS.ltb (JS.div 1000 1400) (25 # 10)
      = true
      <-> 2 * 1400 < 5 * 1000 /\ 2 * 1000 < 5 * 1400).
Proof.
  split; [split; reflexivity|].
  apply (fallback_test_is_orientation_independent 1000 1400); reflexivity.
Defined.

(** ** Where the selected rectangle comes from (lines 271-315) *)

(** X4. On a page of positive sides, a rectangle returned by the
    selection is either the full page, chosen by the fallback when no
    contour survived, or the bounding rectangle of one of the contours
    found: one that passed both filters and whose area no other
    survivor exceeds. *)
Theorem selected_rectangle_provenance `{Engine}
    (src : Image) (w : World) (bestRect : Rect) :
  0 < cols src -> 0 < rows src ->
  fst (locateLabel src w) = Returned bestRect ->
  let totalArea := cols src * rows src in
  let survivors := collectCandidates totalArea (contourRects src) in
  let best := mkCandidate (width bestRect * height bestRect) bestRect in
  (In bestRect (contourRects src)
   /\ In best survivors
   /\ areaWithinBounds totalArea best
   /\ ratioWithinBounds best
   /\ forall c, In c survivors -> area c <= area best)
  \/ (survivors = []
      /\ pageRatioInWindow (cols src) (rows src)
      /\ bestRect = fullRect src).
Proof.
  intros Hc Hr Hret. cbv zeta.
  assert (Hpos : 0 < cols src * rows src) by lia.
  destruct (locateLabel_cases src) as
    [best new Hsurv Hbest Hlog Hrun | new Hsurv Hwin Hlog Hrun
     | new Hsurv Hwin Hlog Hrun]; rewrite Hrun in Hret; cbn [fst] in Hret.
  - injection Hret as <-. left.
    destruct (sort_head_firstOfGreatestArea _ Hsurv)
      as (best' & rest & Hs & Hfirst).
    rewrite Hs in Hbest. injection Hbest as ->.
    assert (Hin : In best (collectCandidates (cols src * rows src)
                             (contourRects src))).
    { destruct Hfirst as (before & after & -> & _).
      apply in_or_app. right. now left. }
    destruct (collectCandidates_In _ _ _ Hin) as (Hfound & Harea & _).
    assert (Heq : mkCandidate (width (rect best) * height (rect best))
                    (rect best) = best)
      by (destruct best as [a r]; cbn in *; now subst).
    rewrite Heq.
    destruct (collectCandidates_bounds _ _ _ Hpos Hin) as [Hab Hrb].
    split; [exact Hfound|]. split; [exact Hin|].
    split; [exact Hab|]. split; [exact Hrb|].
    intros c Hcin. exact (firstOfGreatestArea_bound _ _ _ Hfirst Hcin).
  - injection Hret as <-. right. auto.
  - discriminate.
Qed.

Lemma selected_rectangle_provenance_witness :
  let small := mkRect 100 100 600 900 in
  let large := mkRect 200 200 1000 1500 in
  let E := Scenario.engine [small; large] in
  let src := Scenario.page 2400 3600 in
  let w := Scenario.start [small; large] in
  (0 < cols src /\ 0 < rows src
   /\ fst (@locateLabel E src w) = Returned large)
  /\ ((In large [small; large]
       /\ In (mkCandidate 1500000 large)
            (collectCandidates (2400 * 3600) [small; large])
       /\ areaWithinBounds (2400 * 3600) (mkCandidate 1500000 large)
       /\ ratioWithinBounds (mkCandidate 1500000 large)
       /\ forall c, In c (collectCandidates (2400 * 3600) [small; large]) ->
                    area c <= 1500000)
      \/ (collectCandidates (2400 * 3600) [small; large] = []
          /\ pageRatioInWindow 2400 3600
          /\ large = mkRect 0 0 2400 3600)).
Proof.
  intros small large E src w.
  assert (Hc : 0 < cols src) by reflexivity.
  assert (Hr : 0 < rows src) by reflexivity.
  assert (Hret : fst (@locateLabel E src w) = Returned large) by reflexivity.
  split; [repeat split; assumption|].
  exact (@selected_rectangle_provenance E src w large Hc Hr Hret).
Defined.

(** ** How a run can end (lines 229-345) *)

(** X5. A run returns exactly when the image has non-zero sides and
    either a contour survives the filters or the page passes the
    fallback test.  Otherwise it throws, and only two errors are
    possible: the IndexSizeError of the empty canvas, or
    [NoLabelDetected]; [candidates[0]] is never undefined.  Whatever
    the end, the log is only appended to. *)
Theorem processImage_outcome `{Engine} (imageSrc : Image) (w : World) :
  let src := drawnOverWhite imageSrc in
  let survivors := collectCandidates (cols src * rows src) (contourRects src) in
  let inWindow := pageRatioInWindow (cols imageSrc) (rows imageSrc) in
  let run := processImage imageSrc w in
  (fst run = Returned tt
   <-> cols imageSrc <> 0 /\ rows imageSrc <> 0
       /\ (survivors <> [] \/ inWindow))
  /\ (fst run = Threw IndexSizeError
      <-> cols imageSrc = 0 \/ rows imageSrc = 0)
  /\ (fst run = Threw NoLabelDetected
      <-> cols imageSrc <> 0 /\ rows imageSrc <> 0
          /\ survivors = [] /\ ~ inWindow)
  /\ (forall e, fst run = Threw e -> e = IndexSizeError \/ e = NoLabelDetected)
  /\ logs (present (snd run)) = logs (present w) ++ emitted w (snd run).
Proof.
  cbv zeta.
  change (cols (drawnOverWhite imageSrc)) with (cols imageSrc).
  change (rows (drawnOverWhite imageSrc)) with (rows imageSrc).
  assert (Hne : IndexSizeError <> NoLabelDetected) by discriminate.
  assert (Hempty : cols imageSrc = 0 \/ rows imageSrc = 0 ->
                   processImage imageSrc w
                   = (Threw IndexSizeError,
                      logged w ["Starting Computer Vision analysis..."%string]))
    by apply processImage_empty.
  destruct (Z.eq_dec (cols imageSrc) 0) as [Hc | Hc];
    [|destruct (Z.eq_dec (rows imageSrc) 0) as [Hr | Hr]].
  1,2: rewrite Hempty by auto; cbn [fst snd]; rewrite emitted_logged;
    split; [split; [discriminate | tauto]|];
    split; [split; auto|];
    split; [split; [intros He; congruence | tauto]|];
    split; [intros e He; injection He as <-; auto | reflexivity].
  destruct (locateLabel_cases (drawnOverWhite imageSrc)) as
    [best new Hsurv Hbest Hlog Hrun | new Hsurv Hwin Hlog Hrun
     | new Hsurv Hwin Hlog Hrun].
  1,2: destruct (processImage_located imageSrc _ _ Hc Hr Hrun)
      as (new' & _ & Hp);
    rewrite Hp; cbn [fst snd]; rewrite emitted_succeeded;
    split; [split; [tauto | reflexivity]|];
    split; [split; [discriminate | tauto]|];
    split; [split; [discriminate | tauto]|];
    split; [intros e He; discriminate | reflexivity].
  rewrite (processImage_not_located imageSrc _ _ Hc Hr Hrun).
  cbn [fst snd]. rewrite emitted_logged.
  split; [split; [discriminate | tauto]|].
  split; [split; [intros He; congruence | tauto]|].
  split; [split; [tauto | reflexivity]|].
  split; [intros e He; injection He as <-; auto | reflexivity].
Qed.

(** ** Extraction order and the selected area (lines 274-314) *)

Lemma collectCandidates_Permutation (totalArea : Z) (l l' : list Rect) :
  Permutation l l' ->
  Permutation (collectCandidates totalArea l) (collectCandidates totalArea l').
Proof.
  induction 1 as [|r l l' Hp IH|r1 r2 l|l1 l2 l3 H12 IH12 H23 IH23].
  - apply perm_nil.
  - cbn [collectCandidates]. cbv zeta.
    destruct (areaRejected totalArea (width r * height r)); [exact IH|].
    destruct (ratioRejected r); [exact IH | now apply perm_skip].
  - cbn [collectCandidates]. cbv zeta.
    destruct (areaRejected totalArea (width r1 * height r1));
      destruct (areaRejected totalArea (width r2 * height r2));
      destruct (ratioRejected r1); destruct (ratioRejected r2);
      try apply Permutation_refl.
    apply perm_swap.
  - eapply perm_trans; eassumption.
Qed.

Lemma greatest_area_Permutation (l l' : list Candidate) :
  Permutation l l' ->
  option_map area (hd_error (sort byAreaDesc l))
  = option_map area (hd_error (sort byAreaDesc l')).
Proof.
  intros Hp. destruct l as [|c l].
  - apply Permutation_nil in Hp. now subst.
  - assert (Hne : c :: l <> []) by discriminate.
    assert (Hne' : l' <> []).
    { intros ->. apply Permutation_sym, Permutation_nil in Hp. discriminate. }
    destruct (sort_head_firstOfGreatestArea _ Hne) as (b & rest & Hs & Hb).
    destruct (sort_head_firstOfGreatestArea _ Hne') as (b' & rest' & Hs' & Hb').
    rewrite Hs, Hs'. cbn. f_equal.
    assert (Hin : In b (c :: l))
      by (destruct Hb as (p & q & -> & _); apply in_or_app; right; now left).
    assert (Hin' : In b' l')
      by (destruct Hb' as (p & q & -> & _); apply in_or_app; right; now left).
    pose proof (firstOfGreatestArea_bound _ _ _ Hb'
                  (Permutation_in _ Hp Hin)).
    pose proof (firstOfGreatestArea_bound _ _ _ Hb
                  (Permutation_in _ (Permutation_sym Hp) Hin')).
    lia.
Qed.

(** X6. The order in which the contours are found never changes the
    area that is selected: for two orders of the same contours the
    candidates sorted first have the same area (only which of several
    equally large candidates comes first can differ). *)
Theorem selected_area_ignores_extraction_order
    (totalArea : Z) (contours contours' : list Rect) :
  Permutation contours contours' ->
  option_map area
    (hd_error (sort byAreaDesc (collectCandidates totalArea contours)))
  = option_map area
      (hd_error (sort byAreaDesc (collectCandidates totalArea contours'))).
Proof.
  intros Hp. apply greatest_area_Permutation.
  now apply collectCandidates_Permutation.
Qed.

Lemma selected_area_ignores_extraction_order_witness :
  let a := mkRect 0 0 1000 1500 in
  let b := mkRect 1200 0 1500 1000 in
  Permutation [a; b] [b; a]
  /\ option_map area
       (hd_error (sort byAreaDesc (collectCandidates (2400 * 3600) [a; b])))
     = option_map area
         (hd_error (sort byAreaDesc (collectCandidates (2400 * 3600) [b; a]))).
Proof.
  intros a b.
  assert (Hp : Permutation [a; b] [b; a]) by apply perm_swap.
  split; [exact Hp|].
  exact (selected_area_ignores_extraction_order (2400 * 3600) [a; b] [b; a] Hp).
Defined.

Example equal_areas_first_found_wins :
  let a := mkRect 0 0 1000 1500 in
  let b := mkRect 1200 0 1500 1000 in
  option_map rect
    (hd_error (sort byAreaDesc (collectCandidates (2400 * 3600) [a; b])))
  = Some a
  /\ option_map rect
       (hd_error (sort byAreaDesc (collectCandidates (2400 * 3600) [b; a])))
     = Some b.
Proof. split; reflexivity. Qed.

(** ** How an upload ends (lines 98-128) *)

Lemma processImage_run_sized `{Engine} (imageSrc : Image) :
  (exists new out,
      cols out = 1200 /\ rows out = 1800
      /\ forall w, processImage imageSrc w = (Returned tt, succeeded w new out))
  \/ (exists e new,
        forall w, processImage imageSrc w = (Threw e, logged w new)).
Proof.
  destruct (Z.eq_dec (cols imageSrc) 0) as [Hc | Hc].
  { right. do 2 eexists. intros w. apply processImage_empty. auto. }
  destruct (Z.eq_dec (rows imageSrc) 0) as [Hr | Hr].
  { right. do 2 eexists. intros w. apply processImage_empty. auto. }
  destruct (locateLabel_cases (drawnOverWhite imageSrc)) as
    [best new Hsurv Hbest Hlog Hrun | new Hsurv Hwin Hlog Hrun
     | new Hsurv Hwin Hlog Hrun].
  - destruct (processImage_located imageSrc _ _ Hc Hr Hrun)
      as (new' & _ & Hp).
    left. do 2 eexists. split; [|split; [|exact Hp]]; reflexivity.
  - destruct (processImage_located imageSrc _ _ Hc Hr Hrun)
      as (new' & _ & Hp).
    left. do 2 eexists. split; [|split; [|exact Hp]]; reflexivity.
  - right. do 2 eexists.
    exact (processImage_not_located imageSrc _ _ Hc Hr Hrun).
Qed.

(** The log of an upload starts afresh with these two lines. *)
Definition uploadLogStart (f : File) : list string :=
  ["Ready for new file."%string; ("Processing file: " ++ name f)%string].

(** The three ways an upload can end, whatever the state it starts in. *)
Inductive UploadEnd `{Engine} (f : File) : Prop :=
| UploadSucceeded (img out : Image) (new new' : list string)
    (Hload : forall w, loadImageSrc f w = (Returned img, logged w new))
    (Hrun : forall w, processImage img w = (Returned tt, succeeded w new' out))
    (Hsize : cols out = 1200 /\ rows out = 1800)
    (Hend : forall w,
        fst (handleFileUpload (Some f) w) = Returned tt
        /\ present (snd (handleFileUpload (Some f) w))
           = mkAppState success
               (uploadLogStart f ++ new ++ new'
                ++ ["Processing Complete!"%string])
               (Some f) (Some img) (Some out))
| UploadNotDetected (img : Image) (e : Error) (new new' : list string)
    (Hload : forall w, loadImageSrc f w = (Returned img, logged w new))
    (Hrun : forall w, processImage img w = (Threw e, logged w new'))
    (Hend : forall w,
        fst (handleFileUpload (Some f) w) = Returned tt
        /\ present (snd (handleFileUpload (Some f) w))
           = mkAppState error
               (uploadLogStart f ++ new ++ new' ++ [("Error: " ++ e)%string])
               (Some f) (Some img) None)
| UploadNotLoaded (e : Error) (new : list string)
    (Hload : forall w, loadImageSrc f w = (Threw e, logged w new))
    (Hend : forall w,
        fst (handleFileUpload (Some f) w) = Returned tt
        /\ present (snd (handleFileUpload (Some f) w))
           = mkAppState error
               (uploadLogStart f ++ new ++ [("Error: " ++ e)%string])
               (Some f) None None).

(** Reduces a goal about the result and the final state of an upload
    to the computation of the upload. *)
Ltac upload_end f w :=
  match goal with
  | |- _ /\ present _ = ?final =>
      let shown := fresh "shown" in
      let Heq := fresh "Heq" in
      assert (exists shown,
                 handleFileUpload (Some f) w
                 = (Returned tt, mkWorld final shown)) as (shown & Heq);
      [eexists; enter_upload w | rewrite Heq; split; reflexivity]
  end.

Lemma handleFileUpload_cases `{Engine} (f : File) : UploadEnd f.
Proof.
  destruct (loadImageSrc_run f) as (o & new & Hload).
  destruct o as [img | e].
  - destruct (processImage_run_sized img)
      as [(new' & out & Hc & Hr & Hp) | (e & new' & Hp)].
    + apply (UploadSucceeded f img out new new' Hload Hp (conj Hc Hr)).
      intros w. upload_end f w. rewrite Hload, bind_run.
      unfold setOriginalImage, modify. cbv beta iota. rewrite Hp.
      unfold succeeded, logged, uploadLogStart. project_state.
      cbn [List.app]. reflexivity.
    + apply (UploadNotDetected f img e new new' Hload Hp).
      intros w. upload_end f w. rewrite Hload, bind_run.
      unfold setOriginalImage, modify. cbv beta iota. rewrite Hp.
      unfold logged, bind, setStatus, addLog, setLogs, modify, uploadLogStart.
      project_state. cbn [List.app]. rewrite <- !app_assoc.
      reflexivity.
  - apply (UploadNotLoaded f e new Hload).
    intros w. upload_end f w. rewrite Hload.
    unfold logged, bind, setStatus, addLog, setLogs, modify, uploadLogStart.
    project_state. cbn [List.app]. reflexivity.
Qed.

(** X9. A file whose declared type is neither 'application/pdf' nor
    starts with 'image/' is refused without any engine being called:
    the upload ends in the error state, with the file recorded, no
    image at all, and exactly three log lines, the last one the
    unsupported-type message. *)
Theorem upload_of_unsupported_type `{Engine} (f : File) (w : World) :
  String.eqb (type f) "application/pdf" = false ->
  String.prefix "image/" (type f) = false ->
  present (snd (handleFileUpload (Some f) w))
  = mkAppState error
      ["Ready for new file."%string;
       ("Processing file: " ++ name f)%string;
       "Error: Unsupported file type. Please upload PDF, PNG, or JPG."%string]
      (Some f) None None.
Proof.
  intros Hpdf Himg.
  assert (Hend : exists shown,
             handleFileUpload (Some f) w
             = (Returned tt,
                mkWorld
                  (mkAppState error
                     ["Ready for new file."%string;
                      ("Processing file: " ++ name f)%string;
                      "Error: Unsupported file type. Please upload PDF, PNG, or JPG."%string]
                     (Some f) None None) shown)).
  { eexists. enter_upload w. unfold loadImageSrc. rewrite Hpdf, Himg.
    unfold throw, bind, setStatus, addLog, setLogs, modify. project_state.
    cbn [List.app]. reflexivity. }
  destruct Hend as (shown & ->). reflexivity.
Qed.

Lemma upload_of_unsupported_type_witness :
  let E := Scenario.engine [] in
  let f := mkFile "notes.txt"%string "text/plain"%string [] in
  (String.eqb (type f) "application/pdf" = false
   /\ String.prefix "image/" (type f) = false)
  /\ present (snd (@handleFileUpload E (Some f) (Scenario.start [])))
     = @mkAppState E error
         ["Ready for new file."%string;
          "Processing file: notes.txt"%string;
          "Error: Unsupported file type. Please upload PDF, PNG, or JPG."%string]
         (Some f) None None.
Proof.
  intros E f. split; [split; reflexivity|].
  apply (@upload_of_unsupported_type E f (Scenario.start [])); reflexivity.
Defined.

(** X10. Whatever is thrown while the file is read, converted or
    processed reaches the user: the upload ends in the error state with
    'Error: ' and the message as the last log line and no processed
    image.  The original image stays on display exactly when the file
    could be read and only the processing failed. *)
Theorem upload_error_is_shown `{Engine} (f : File) (w : World) (e : Error) :
  (fst (loadImageSrc f w) = Threw e
   \/ exists img, fst (loadImageSrc f w) = Returned img
                  /\ fst (processImage img w) = Threw e) ->
  let a := present (snd (handleFileUpload (Some f) w)) in
  status a = error
  /\ processedImage a = None
  /\ last (logs a) EmptyString = ("Error: " ++ e)%string
  /\ originalImage a = match fst (loadImageSrc f w) with
                       | Returned img => Some img
                       | Threw _ => None
                       end.
Proof.
  intros Hfail. cbv zeta.
  destruct (handleFileUpload_cases f) as
    [img out new new' Hload Hrun Hsize Hend | img e' new new' Hload Hrun Hend
     | e' new Hload Hend];
    destruct (Hend w) as [_ Hp]; rewrite Hp; rewrite Hload in *;
    cbn [fst] in *; project_state.
  - exfalso. destruct Hfail as [Hf | (img' & Hi & Hf)]; [discriminate|].
    injection Hi as <-. rewrite Hrun in Hf. discriminate.
  - destruct Hfail as [Hf | (img' & Hi & Hf)]; [discriminate|].
    injection Hi as <-. rewrite Hrun in Hf. injection Hf as <-.
    repeat split. rewrite !app_assoc. apply last_last.
  - destruct Hfail as [Hf | (img' & Hi & Hf)]; [|discriminate].
    injection Hf as <-.
    repeat split. rewrite !app_assoc. apply last_last.
Qed.

Lemma upload_error_is_shown_witness :
  let E := Scenario.engine [] in
  let f := Scenario.png 3000 500 in
  let w := Scenario.start [] in
  let a := present (snd (@handleFileUpload E (Some f) w)) in
  (exists img, fst (@loadImageSrc E f w) = Returned img
               /\ fst (@processImage E img w) = Threw NoLabelDetected)
  /\ status a = error
  /\ processedImage a = None
  /\ last (logs a) EmptyString = ("Error: " ++ NoLabelDetected)%string
  /\ originalImage a = Some (Scenario.page 3000 500).
Proof.
  intros E f w a.
  assert (Hfail : exists img, fst (@loadImageSrc E f w) = Returned img
                    /\ fst (@processImage E img w) = Threw NoLabelDetected)
    by (exists (Scenario.page 3000 500); split; reflexivity).
  split; [exact Hfail|].
  exact (@upload_error_is_shown E f w NoLabelDetected (or_intror Hfail)).
Defined.

(** ** What the toolbar offers (lines 413, 557-586, 607) *)

(** [disabled={status === 'processing' || status === 'loading'}] of the
    file input. *)
Definition uploadDisabled `{Engine} (a : AppState) : bool :=
  match status a with
  | processing | loading => true
  | _ => false
  end.

(** [disabled={!processedImage}] of the rotate and reset buttons. *)
Definition rotateDisabled `{Engine} (a : AppState) : bool :=
  match processedImage a with
  | None => true
  | Some _ => false
  end.

(** [disabled={status !== 'success'}] of the print button; the download
    link tests the same. *)
Definition printDisabled `{Engine} (a : AppState) : bool :=
  match status a with
  | success => false
  | _ => true
  end.

(** ** Repeated manual rotation (lines 163-190) *)

(** X12. Two rotations in the same direction turn the processed image
    upside down, whichever the direction: width and height are kept and
    the pixel at (i, j) is the original pixel at
    (rows - 1 - i, cols - 1 - j); status, log, file and original image
    are untouched. *)
Theorem two_rotations_make_a_half_turn `{Engine}
    (direction : string) (w : World) (img : Image) :
  processedImage (present w) = Some img ->
  let w2 := snd (handleRotate direction (snd (handleRotate direction w))) in
  exists img',
    processedImage (present w2) = Some img'
    /\ cols img' = cols img
    /\ rows img' = rows img
    /\ (forall i j, at_ img' i j = at_ img (rows img - 1 - i) (cols img - 1 - j))
    /\ status (present w2) = status (present w)
    /\ logs (present w2) = logs (present w)
    /\ file (present w2) = file (present w)
    /\ originalImage (present w2) = originalImage (present w).
Proof.
  intros Himg.
  rewrite (handleRotate_with_image direction w img Himg). cbn [snd].
  erewrite handleRotate_with_image by reflexivity. cbn [snd].
  project_state. eexists. split; [reflexivity|].
  destruct (String.eqb direction "left"); cbn [rotate cols rows at_];
    repeat split; intros i j; f_equal; lia.
Qed.

Lemma two_rotations_make_a_half_turn_witness :
  let E := Scenario.engine [] in
  let w := snd (@handleFileUpload E (Some (Scenario.png 1000 1400))
                  (Scenario.start [])) in
  let img := @resize E (Scenario.page 1000 1400) (mkSize 1200 1800) in
  let w2 := snd (@handleRotate E "right"
                   (snd (@handleRotate E "right" w))) in
  processedImage (present w) = Some img
  /\ exists img',
      processedImage (present w2) = Some img'
      /\ cols img' = cols img
      /\ rows img' = rows img
      /\ (forall i j,
             at_ img' i j = at_ img (rows img - 1 - i) (cols img - 1 - j))
      /\ status (present w2) = status (present w)
      /\ logs (present w2) = logs (present w)
      /\ file (present w2) = file (present w)
      /\ originalImage (present w2) = originalImage (present w).
Proof.
  intros E w img w2. split; [reflexivity|].
  apply (@two_rotations_make_a_half_turn E "right"%string w img).
  reflexivity.
Defined.

(** X13. Four rotations in the same direction give back the processed
    image, pixel for pixel and with its width and height, under the
    status the state had. *)
Theorem four_rotations_restore_the_image `{Engine}
    (direction : string) (w : World) (img : Image) :
  processedImage (present w) = Some img ->
  let turn := fun w' => snd (handleRotate direction w') in
  let w4 := turn (turn (turn (turn w))) in
  exists img',
    processedImage (present w4) = Some img'
    /\ cols img' = cols img
    /\ rows img' = rows img
    /\ (forall i j, at_ img' i j = at_ img i j)
    /\ status (present w4) = status (present w).
Proof.
  intros Himg. cbv beta zeta.
  rewrite (handleRotate_with_image direction w img Himg). cbn [snd].
  do 3 (erewrite handleRotate_with_image by reflexivity; cbn [snd]).
  project_state. eexists. split; [reflexivity|].
  destruct (String.eqb direction "left"); cbn [rotate cols rows at_];
    repeat split; intros i j; f_equal; lia.
Qed.

Lemma four_rotations_restore_the_image_witness :
  let E := Scenario.engine [] in
  let w := snd (@handleFileUpload E (Some (Scenario.png 1000 1400))
                  (Scenario.start [])) in
  let img := @resize E (Scenario.page 1000 1400) (mkSize 1200 1800) in
  let turn := fun w' => snd (@handleRotate E "left" w') in
  processedImage (present w) = Some img
  /\ exists img',
      processedImage (present (turn (turn (turn (turn w))))) = Some img'
      /\ cols img' = cols img
      /\ rows img' = rows img
      /\ (forall i j, at_ img' i j = at_ img i j)
      /\ status (present (turn (turn (turn (turn w))))) = status (present w).
Proof.
  intros E w img turn. split; [reflexivity|].
  apply (@four_rotations_restore_the_image E "left"%string w img).
  reflexivity.
Defined.

(** X14. Only the direction 'left' rotates counter-clockwise: any other
    direction does what 'right' does. *)
Theorem any_other_direction_rotates_clockwise `{Engine}
    (direction : string) (w : World) :
  direction <> "left"%string ->
  handleRotate direction w = handleRotate "right" w.
Proof.
  intros Hne. apply String.eqb_neq in Hne.
  destruct (processedImage (present w)) as [img|] eqn:Hp.
  - rewrite !(handleRotate_with_image _ w img Hp). cbv zeta.
    rewrite Hne. reflexivity.
  - unfold handleRotate, bind, getState. project_state. now rewrite Hp.
Qed.

Lemma any_other_direction_rotates_clockwise_witness :
  let E := Scenario.engine [] in
  let w := snd (@handleFileUpload E (Some (Scenario.png 1000 1400))
                  (Scenario.start [])) in
  "upside-down"%string <> "left"%string
  /\ @handleRotate E "upside-down" w = @handleRotate E "right" w.
Proof.
  intros E w.
  assert (Hne : "upside-down"%string <> "left"%string) by discriminate.
  split; [exact Hne|].
  exact (@any_other_direction_rotates_clockwise E "upside-down"%string w Hne).
Defined.

(** X15. A rotation returns normally and touches nothing but the
    processed image: status, log, file and original image are what they
    were, and a processed image is there afterwards exactly when one
    was there before. *)
Theorem rotation_changes_only_the_processed_image `{Engine}
    (direction : string) (w : World) :
  let run := handleRotate direction w in
  fst run = Returned tt
  /\ status (present (snd run)) = status (present w)
  /\ logs (present (snd run)) = logs (present w)
  /\ file (present (snd run)) = file (present w)
  /\ originalImage (present (snd run)) = originalImage (present w)
  /\ rotateDisabled (present (snd run)) = rotateDisabled (present w).
Proof.
  cbv zeta. destruct (processedImage (present w)) as [img|] eqn:Hp.
  - rewrite (handleRotate_with_image direction w img Hp). cbv zeta.
    unfold rotateDisabled. project_state. rewrite Hp. repeat split.
  - unfold handleRotate, bind, getState. project_state. rewrite Hp.
    repeat split.
Qed.

(** ** Loading the engines (lines 36-81) *)

(** The [librariesLoaded] cell (line 24). *)
Record LibrariesLoaded : Type := mkLibrariesLoaded { cv : bool; pdf : bool }.

(** What can happen while the engines load: the component mounts, with
    [window.pdfjsLib] and [window.cv] already there or not; the PDF.js
    script fires [onload]; OpenCV fires [onRuntimeInitialized]. *)
Inductive LoadEvent : Type :=
| Mounted (hasPdfjsLib hasCv : bool)
| PdfScriptLoaded
| CvRuntimeInitialized.

(** The effect of lines 76-81, run when [librariesLoaded] has changed. *)
Definition readyEffect `{Engine} (libs : LibrariesLoaded) : M unit :=
  if cv libs && pdf libs then
    setStatus ready;;
    addLog "System Ready. Upload a shipping label."%string
  else ret tt.

Definition onLoadEvent `{Engine} (ev : LoadEvent) (libs : LibrariesLoaded)
  : LibrariesLoaded * M unit :=
  match ev with
  | Mounted hasPdfjsLib hasCv =>
      let libs1 := if hasPdfjsLib then mkLibrariesLoaded (cv libs) true
                   else libs in
      let libs2 := if hasCv then mkLibrariesLoaded true (pdf libs1)
                   else libs1 in
      (libs2, addLog "Initializing environment..."%string;; readyEffect libs2)
  | PdfScriptLoaded =>
      let libs' := mkLibrariesLoaded (cv libs) true in
      (libs', addLog "PDF Engine loaded."%string;; readyEffect libs')
  | CvRuntimeInitialized =>
      let libs' := mkLibrariesLoaded true (pdf libs) in
      (libs', addLog "OpenCV Engine loaded."%string;; readyEffect libs')
  end.

Fixpoint runLoadEvents `{Engine} (evs : list LoadEvent)
    (libs : LibrariesLoaded) (w : World) : LibrariesLoaded * World :=
  match evs with
  | [] => (libs, w)
  | ev :: rest =>
      let (libs', handler) := onLoadEvent ev libs in
      runLoadEvents rest libs' (snd (handler w))
  end.

Definition providesPdf (ev : LoadEvent) : bool :=
  match ev with
  | Mounted hasPdfjsLib _ => hasPdfjsLib
  | PdfScriptLoaded => true
  | CvRuntimeInitialized => false
  end.

Definition providesCv (ev : LoadEvent) : bool :=
  match ev with
  | Mounted _ hasCv => hasCv
  | PdfScriptLoaded => false
  | CvRuntimeInitialized => true
  end.

Lemma onLoadEvent_run `{Engine} (ev : LoadEvent) (libs : LibrariesLoaded)
    (w : World) :
  let libs' := fst (onLoadEvent ev libs) in
  let w' := snd (snd (onLoadEvent ev libs) w) in
  cv libs' = cv libs || providesCv ev
  /\ pdf libs' = pdf libs || providesPdf ev
  /\ status (present w') = (if cv libs' && pdf libs' then ready
                            else status (present w))
  /\ file (present w') = file (present w)
  /\ originalImage (present w') = originalImage (present w)
  /\ processedImage (present w') = processedImage (present w).
Proof.
  destruct libs as [c p].
  destruct ev as [[|] [|] | | ]; destruct c, p; cbn; repeat split.
Qed.

(** X16. While the engines load, the status is 'ready' exactly when
    both have become available (found at mount, or loaded later, in
    whichever order) and 'loading' until then, so the file input stays
    disabled until both are there; no file or image is set meanwhile. *)
Theorem ready_exactly_when_both_engines_loaded `{Engine}
    (evs : list LoadEvent) (w : World) :
  status (present w) = loading ->
  let libs := fst (runLoadEvents evs (mkLibrariesLoaded false false) w) in
  let w' := snd (runLoadEvents evs (mkLibrariesLoaded false false) w) in
  cv libs = existsb providesCv evs
  /\ pdf libs = existsb providesPdf evs
  /\ status (present w') = (if existsb providesCv evs
                               && existsb providesPdf evs
                            then ready else loading)
  /\ uploadDisabled (present w')
     = negb (existsb providesCv evs && existsb providesPdf evs)
  /\ processedImage (present w') = processedImage (present w).
Proof.
  intros Hloading. cbv zeta.
  assert (Hgen : forall evs libs w0,
             status (present w0) = (if cv libs && pdf libs then ready
                                    else loading) ->
             let libs' := fst (runLoadEvents evs libs w0) in
             let w' := snd (runLoadEvents evs libs w0) in
             cv libs' = cv libs || existsb providesCv evs
             /\ pdf libs' = pdf libs || existsb providesPdf evs
             /\ status (present w') = (if cv libs' && pdf libs' then ready
                                       else loading)
             /\ processedImage (present w') = processedImage (present w0)).
  { clear. induction evs as [|ev rest IH]; intros libs w0 Hst; cbv zeta.
    - cbn. rewrite !orb_false_r. auto.
    - cbn [runLoadEvents existsb].
      pose proof (onLoadEvent_run ev libs w0) as Hrun. cbv zeta in Hrun.
      destruct (onLoadEvent ev libs) as [libs1 handler]. cbn [fst snd] in *.
      destruct Hrun as (Hcv & Hpdf & Hst1 & _ & _ & Himg).
      assert (Hst1' : status (present (snd (handler w0)))
                      = if cv libs1 && pdf libs1 then ready else loading).
      { rewrite Hst1, Hst, Hcv, Hpdf.
        destruct (cv libs), (pdf libs), (providesCv ev), (providesPdf ev);
          reflexivity. }
      specialize (IH libs1 (snd (handler w0)) Hst1'). cbv zeta in IH.
      destruct IH as (Hc & Hp & Hs & Hi).
      rewrite Hc, Hp, Hcv, Hpdf, ?orb_assoc.
      split; [reflexivity|]. split; [reflexivity|].
      split; [|now rewrite Hi].
      rewrite Hs, Hc, Hp, Hcv, Hpdf, ?orb_assoc. reflexivity. }
  specialize (Hgen evs (mkLibrariesLoaded false false) w Hloading).
  cbv zeta in Hgen. cbn [cv pdf orb] in Hgen.
  destruct Hgen as (Hc & Hp & Hs & Hi).
  rewrite Hc, Hp in Hs.
  split; [exact Hc|]. split; [exact Hp|]. split; [exact Hs|].
  split; [|exact Hi].
  unfold uploadDisabled. rewrite Hs.
  destruct (existsb providesCv evs && existsb providesPdf evs); reflexivity.
Qed.

Lemma ready_exactly_when_both_engines_loaded_witness :
  let E := Scenario.engine [] in
  let w := @mkWorld E (@mkAppState E loading [] None None None) [] in
  let evs := [Mounted false false; CvRuntimeInitialized; PdfScriptLoaded] in
  status (present w) = loading
  /\ status (present (snd (@runLoadEvents E evs
                             (mkLibrariesLoaded false false) w))) = ready
  /\ status (present (snd (@runLoadEvents E [Mounted false false;
                                             CvRuntimeInitialized]
                             (mkLibrariesLoaded false false) w))) = loading.
Proof.
  intros E w evs.
  assert (Hl : status (present w) = loading) by reflexivity.
  split; [exact Hl|]. split.
  - exact (proj1 (proj2 (proj2
             (@ready_exactly_when_both_engines_loaded E evs w Hl)))).
  - exact (proj1 (proj2 (proj2
             (@ready_exactly_when_both_engines_loaded E
                [Mounted false false; CvRuntimeInitialized] w Hl)))).
Defined.

(** ** Resolution independence of the filters (lines 272-301) *)

(** The rectangle [r] on a page rendered [k] times as large. *)
Definition scaleRect (k : Z) (r : Rect) : Rect :=
  mkRect (k * x r) (k * y r) (k * width r) (k * height r).

Definition scaleCandidate (k : Z) (c : Candidate) : Candidate :=
  mkCandidate (k * k * area c) (scaleRect k (rect c)).

Lemma bool_eq_of_false_iff (b1 b2 : bool) :
  (b1 = false <-> b2 = false) -> b1 = b2.
Proof. destruct b1, b2; intros [H1 H2]; auto; symmetry; auto. Qed.

Lemma areaRejected_scale (k totalArea a : Z) :
  0 < k -> areaRejected (k * k * totalArea) (k * k * a) = areaRejected totalArea a.
Proof.
  intros Hk. apply bool_eq_of_false_iff. rewrite !areaRejected_false_iff.
  assert (HK : 0 < k * k) by nia. nia.
Qed.

Lemma ratioRejected_scale (k : Z) (r : Rect) :
  0 < k -> 0 < height r -> ratioRejected (scaleRect k r) = ratioRejected r.
Proof.
  intros Hk Hh. apply bool_eq_of_false_iff.
  rewrite (ratioRejected_false_iff r Hh).
  rewrite (ratioRejected_false_iff (scaleRect k r))
    by (cbn [height scaleRect]; nia).
  cbn [height width scaleRect]. nia.
Qed.

(** X17. The filters and the fallback test are independent of the
    resolution: on the same page rendered k times as large, with every
    bounding rectangle (of positive height) scaled by k, exactly the
    scaled candidates survive, in the same order, and the fallback test
    gives the same answer. *)
Theorem filters_are_resolution_independent
    (k totalArea pageWidth pageHeight : Z) (contours : list Rect) :
  0 < k ->
  0 < pageHeight ->
  Forall (fun r => 0 < height r) contours ->
  collectCandidates (k * k * totalArea) (map (scaleRect k) contours)
  = map (scaleCandidate k) (collectCandidates totalArea contours)
  /\ JS.gtb (JS.div (k * pageWidth) (k * pageHeight)) (4 # 10)
     && JS.ltb (JS.div (k * pageWidth) (k * pageHeight)) (25 # 10)
     = JS.gtb (JS.div pageWidth pageHeight) (4 # 10)
       && JS.ltb (JS.div pageWidth pageHeight) (25 # 10).
Proof.
  intros Hk Hh Hall. split.
  - induction Hall as [|r rest Hr Hrest IH]; [reflexivity|].
    cbn [map collectCandidates]. cbv zeta.
    assert (Harea : width (scaleRect k r) * height (scaleRect k r)
                    = k * k * (width r * height r))
      by (cbn [width height scaleRect]; ring).
    rewrite Harea, (areaRejected_scale _ _ _ Hk),
      (ratioRejected_scale _ _ Hk Hr), IH.
    destruct (areaRejected totalArea (width r * height r)); [reflexivity|].
    destruct (ratioRejected r); reflexivity.
  - assert (Hkh : 0 < k * pageHeight) by nia.
    pose proof (fallback_test_spec (k * pageWidth) (k * pageHeight)) as Hs.
    pose proof (fallback_test_spec pageWidth pageHeight) as Hu.
    rewrite (pageRatioInWindow_iff _ _ Hkh) in Hs.
    rewrite (pageRatioInWindow_iff _ _ Hh) in Hu.
    destruct (JS.gtb (JS.div (k * pageWidth) (k * pageHeight)) (4 # 10)
              && JS.ltb (JS.div (k * pageWidth) (k * pageHeight)) (25 # 10));
      destruct (JS.gtb (JS.div pageWidth pageHeight) (4 # 10)
                && JS.ltb (JS.div pageWidth pageHeight) (25 # 10));
      try reflexivity; exfalso.
    + assert (Hno : false = true) by (apply Hu; destruct Hs as [Hs _];
                                      specialize (Hs eq_refl); nia).
      discriminate.
    + assert (Hno : false = true) by (apply Hs; destruct Hu as [Hu _];
                                      specialize (Hu eq_refl); nia).
      discriminate.
Qed.

Lemma filters_are_resolution_independent_witness :
  let contours := [mkRect 5 5 10 50; mkRect 0 0 41 10; mkRect 20 20 100 150] in
  (0 < 3 /\ 0 < 300 /\ Forall (fun r => 0 < height r) contours)
  /\ collectCandidates (3 * 3 * 50000) (map (scaleRect 3) contours)
     = map (scaleCandidate 3) (collectCandidates 50000 contours)
  /\ JS.gtb (JS.div (3 * 200) (3 * 300)) (4 # 10)
     && JS.ltb (JS.div (3 * 200) (3 * 300)) (25 # 10)
     = JS.gtb (JS.div 200 300) (4 # 10) && JS.ltb (JS.div 200 300) (25 # 10).
Proof.
  intros contours.
  assert (Hk : 0 < 3) by reflexivity.
  assert (Hh : 0 < 300) by reflexivity.
  assert (Hall : Forall (fun r => 0 < height r) contours)
    by (repeat constructor).
  split; [repeat split; assumption|].
  exact (filters_are_resolution_independent 3 50000 200 300 contours
           Hk Hh Hall).
Defined.

(** * The component while its handlers overlap

    [handleFileUpload], [processImage] and [handleRotate] are
    asynchronous: a handler runs up to its first [await] when its event
    fires, and each later piece runs when what it waits for settles,
    if it ever does.  In between the page stays live, and whatever the
    rendered state enables can be used.  The updates of one piece are
    rendered together: React batches the updates of an event handler,
    and from version 18 on those of a continuation too.  The page is
    taken once both libraries are loaded: the load events of lines
    36-81 are not among its actions. *)

(** ** The pieces of the handlers *)

(** The result of the piece [m] and the state rendered after it, when
    it runs on the rendered state [a]. *)
Definition render `{Engine} {A} (m : M A) (a : AppState)
  : Outcome A * AppState :=
  let r := m (mkWorld a []) in (fst r, present (snd r)).

(** The number of [setStatus] calls of the piece [m] run on [a]. *)
Definition statusUpdates `{Engine} {A} (m : M A) (a : AppState) : nat :=
  List.length (history (snd (m (mkWorld a [])))).

(** Lines 123-127. *)
Definition onUploadError `{Engine} (err : Error) : M unit :=
  setStatus error;;
  addLog ("Error: " ++ err)%string.

(** Lines 110-118 up to the [await]: the log line of the declared
    type, or the exception of line 117. *)
Definition announceType `{Engine} (uploadedFile : File) : M unit :=
  if String.eqb (type uploadedFile) "application/pdf" then
    addLog "Detected PDF. Converting to image..."%string
  else if String.prefix "image/" (type uploadedFile) then
    addLog "Detected Image. Loading..."%string
  else throw UnsupportedInput.

(** What the [await] of line 112 or of line 115 yields. *)
Definition awaitedImageSrc `{Engine} (uploadedFile : File) : M Image :=
  if String.eqb (type uploadedFile) "application/pdf" then
    convertPdfToImage uploadedFile
  else liftE (readFileAsDataURL uploadedFile).

(** Lines 99-118, from the change event to the first [await]: [true]
    when the handler now waits for the image source. *)
Definition uploadStart `{Engine} (uploadedFile : File) : M bool :=
  reset;;
  setFile (Some uploadedFile);;
  setStatus processing;;
  addLog ("Processing file: " ++ name uploadedFile)%string;;
  tryCatch (announceType uploadedFile;; ret true)
           (fun err => onUploadError err;; ret false).

(** Lines 112-121, once the image source has settled: the source that
    [processImage] hands to its image element, if there is one. *)
Definition sourceSettled `{Engine} (uploadedFile : File) : M (option Image) :=
  tryCatch
    (imageSrc <- awaitedImageSrc uploadedFile;;
     setOriginalImage (Some imageSrc);;
     ret (Some imageSrc))
    (fun err => onUploadError err;; ret None).

(** Lines 228-345, once [img.onload] of [processImage] has fired; a
    rejection resumes [handleFileUpload] in its [catch]. *)
Definition imageLoaded `{Engine} (imageSrc : Image) : M unit :=
  tryCatch (processImage imageSrc) onUploadError.

(** Lines 166-167. *)
Definition rotateStart `{Engine} : M unit := setStatus processing.

(** Lines 171-186, once [img.onload] of [handleRotate] has fired:
    [oldStatus] and the image are those of the closure, read from the
    state rendered when the button was clicked. *)
Definition rotateLoaded `{Engine} (oldStatus : Status) (img : Image)
  (direction : string) : M unit :=
  let src := img in
  let rotateCode :=
    if String.eqb direction "left" then ROTATE_90_COUNTERCLOCKWISE
    else ROTATE_90_CLOCKWISE in
  let dst := rotate src rotateCode in
  setProcessedImage (Some dst);;
  setStatus oldStatus.

(** ** The page: a rendered state and the handlers still waiting *)

Inductive Task `{Engine} : Type :=
| AwaitingSource (uploadedFile : File)
| AwaitingImage (imageSrc : Image)
| AwaitingRotation (oldStatus : Status) (img : Image) (direction : string).

Record Screen `{Engine} : Type := mkScreen {
  shown : AppState;
  pending : list Task
}.

Arguments mkScreen {_} _ _.

(** What can happen next: the caller picks a file, clicks a button, or
    the [n]-th waiting handler is resumed. *)
Inductive Action : Type :=
| ChooseFile (files0 : option File)
| ClickRotate (direction : string)
| ClickReset
| Settle (n : nat).

(** Reset is on the toolbar, [disabled={!processedImage}] (line 574),
    and on the error overlay, rendered when [status === 'error']
    (lines 532-544). *)
Definition resetOffered `{Engine} (a : AppState) : bool :=
  match processedImage a, status a with
  | Some _, _ => true
  | None, error => true
  | None, _ => false
  end.

Definition removeTask {A : Type} (n : nat) (l : list A) : list A :=
  firstn n l ++ skipn (S n) l.

(** One action on the page.  An action on a disabled control, and the
    resumption of a handler that is not there, change nothing. *)
Definition act `{Engine} (ev : Action) (s : Screen) : Screen :=
  let a := shown s in
  match ev with
  | ChooseFile None => s
  | ChooseFile (Some uploadedFile) =>
      if uploadDisabled a then s
      else
        match render (uploadStart uploadedFile) a with
        | (Returned true, a') =>
            mkScreen a' (pending s ++ [AwaitingSource uploadedFile])
        | (_, a') => mkScreen a' (pending s)
        end
  | ClickRotate direction =>
      match processedImage a with
      | None => s
      | Some img =>
          mkScreen (snd (render rotateStart a))
            (pending s ++ [AwaitingRotation (status a) img direction])
      end
  | ClickReset =>
      if resetOffered a then mkScreen (snd (render reset a)) (pending s)
      else s
  | Settle n =>
      match nth_error (pending s) n with
      | None => s
      | Some t =>
          let rest := removeTask n (pending s) in
          match t with
          | AwaitingSource uploadedFile =>
              match render (sourceSettled uploadedFile) a with
              | (Returned (Some imageSrc), a') =>
                  mkScreen a' (rest ++ [AwaitingImage imageSrc])
              | (_, a') => mkScreen a' rest
              end
          | AwaitingImage imageSrc =>
              mkScreen (snd (render (imageLoaded imageSrc) a)) rest
          | AwaitingRotation oldStatus img direction =>
              mkScreen (snd (render (rotateLoaded oldStatus img direction) a))
                rest
          end
      end
  end.

(** The steps of a run: the page before, the action, the page after. *)
Fixpoint steps `{Engine} (evs : list Action) (s : Screen)
  : list (Screen * Action * Screen) :=
  match evs with
  | [] => []
  | ev :: rest => (s, ev, act ev s) :: steps rest (act ev s)
  end.

(** The page after a run. *)
Definition play `{Engine} (evs : list Action) (s : Screen) : Screen :=
  fold_left (fun s ev => act ev s) evs s.

(** ** The pieces make up the handlers *)

Lemma bind_assoc_run `{Engine} {A B C} (m : M A) (k : A -> M B) (g : B -> M C)
  (w : World) :
  bind (bind m k) g w = bind m (fun a => bind (k a) g) w.
Proof. unfold bind. destruct (m w) as [[a | e] w']; reflexivity. Qed.

(** The [try] block of lines 107-127, cut at its two [await]s. *)
Lemma upload_try_in_pieces `{Engine} (f : File) (w : World) :
  tryCatch
    (imageSrc <- loadImageSrc f;;
     setOriginalImage (Some imageSrc);;
     processImage imageSrc)
    onUploadError w
  = (started <- tryCatch (announceType f;; ret true)
                  (fun err => onUploadError err;; ret false);;
     if started then
       loaded <- sourceSettled f;;
       match loaded with
       | Some imageSrc => imageLoaded imageSrc
       | None => ret tt
       end
     else ret tt) w.
Proof.
  unfold sourceSettled, imageLoaded, loadImageSrc, announceType,
    awaitedImageSrc.
  destruct (String.eqb (type f) "application/pdf");
    [|destruct (String.prefix "image/" (type f))];
    cbv beta iota zeta delta
      [tryCatch bind ret throw addLog setLogs modify setOriginalImage].
  - destruct (convertPdfToImage f _) as [[img | e] w']; [|reflexivity].
    destruct (processImage img _) as [[[] | e] w'']; reflexivity.
  - destruct (liftE (readFileAsDataURL f) _) as [[img | e] w']; [|reflexivity].
    destruct (processImage img _) as [[[] | e] w'']; reflexivity.
  - destruct (onUploadError UnsupportedInput w) as [[[] | e] w']; reflexivity.
Qed.

(** Run without interruption, the three pieces of an upload are
    [handleFileUpload]. *)
Lemma upload_in_three_pieces `{Engine} (f : File) (w : World) :
  handleFileUpload (Some f) w
  = (started <- uploadStart f;;
     if started then
       loaded <- sourceSettled f;;
       match loaded with
       | Some imageSrc => imageLoaded imageSrc
       | None => ret tt
       end
     else ret tt) w.
Proof.
  unfold handleFileUpload, uploadStart.
  rewrite !bind_assoc_run.
  rewrite bind_run, (bind_run reset).
  destruct (reset w) as [[[] | e] w1]; [|reflexivity].
  rewrite bind_assoc_run, bind_run, (bind_run (setFile _)).
  destruct (setFile (Some f) w1) as [[[] | e] w2]; [|reflexivity].
  rewrite bind_assoc_run, bind_run, (bind_run (setStatus _)).
  destruct (setStatus processing w2) as [[[] | e] w3]; [|reflexivity].
  rewrite bind_assoc_run, bind_run, (bind_run (addLog _)).
  destruct (addLog _ w3) as [[[] | e] w4]; [|reflexivity].
  apply upload_try_in_pieces.
Qed.

(** Run without interruption, the two pieces of a rotation are
    [handleRotate]. *)
Lemma rotate_in_two_pieces `{Engine} (direction : string) (w : World)
  (img : Image) :
  processedImage (present w) = Some img ->
  handleRotate direction w
  = (rotateStart;; rotateLoaded (status (present w)) img direction) w.
Proof.
  intros Himg. unfold handleRotate, rotateStart, rotateLoaded.
  rewrite bind_run. unfold getState at 1. cbv iota beta. rewrite Himg.
  reflexivity.
Qed.

(** ** What each piece renders *)

Definition withStatus `{Engine} (st : Status) (a : AppState) : AppState :=
  mkAppState st (logs a) (file a) (originalImage a) (processedImage a).

Definition cleared `{Engine} : AppState :=
  mkAppState ready ["Ready for new file."%string] None None None.

Lemma reset_render `{Engine} (a : AppState) :
  render reset a = (Returned tt, cleared).
Proof. reflexivity. Qed.

Lemma rotateStart_render `{Engine} (a : AppState) :
  render rotateStart a = (Returned tt, withStatus processing a).
Proof. reflexivity. Qed.

Lemma rotateLoaded_render `{Engine} (oldStatus : Status) (img : Image)
  (direction : string) (a : AppState) :
  render (rotateLoaded oldStatus img direction) a
  = (Returned tt,
     mkAppState oldStatus (logs a) (file a) (originalImage a)
       (Some (rotate img (if String.eqb direction "left"
                          then ROTATE_90_COUNTERCLOCKWISE
                          else ROTATE_90_CLOCKWISE)))).
Proof. reflexivity. Qed.

Lemma uploadStart_render `{Engine} (f : File) (a : AppState) :
  (exists line,
      render (uploadStart f) a
      = (Returned true,
         mkAppState processing (uploadLogStart f ++ [line]) (Some f)
           None None))
  \/ (String.eqb (type f) "application/pdf" = false
      /\ String.prefix "image/" (type f) = false
      /\ render (uploadStart f) a
         = (Returned false,
            mkAppState error
              (uploadLogStart f ++ [("Error: " ++ UnsupportedInput)%string])
              (Some f) None None)).
Proof.
  unfold uploadStart, announceType.
  destruct (String.eqb (type f) "application/pdf").
  - left. eexists. reflexivity.
  - destruct (String.prefix "image/" (type f)).
    + left. eexists. reflexivity.
    + right. repeat split.
Qed.

Lemma awaitedImageSrc_run `{Engine} (f : File) :
  exists o new, forall w, awaitedImageSrc f w = (o, logged w new).
Proof.
  unfold awaitedImageSrc. destruct (String.eqb (type f) "application/pdf").
  - unfold convertPdfToImage. destruct (getDocument f) as [e | doc].
    + exists (Threw e), []. intros w. now rewrite logged_nil.
    + destruct (renderFirstPage doc) as [e | img] eqn:Hpage.
      * exists (Threw e). eexists. intros w.
        cbn [liftE]. unfold ret at 1.
        rewrite !bind_run, addLog_run, Hpage. reflexivity.
      * exists (Returned img). eexists. intros w.
        cbn [liftE]. unfold ret at 1.
        rewrite !bind_run, addLog_run, Hpage. reflexivity.
  - destruct (readFileAsDataURL f) as [e | img].
    + exists (Threw e), []. intros w. now rewrite logged_nil.
    + exists (Returned img), []. intros w. now rewrite logged_nil.
Qed.

Lemma sourceSettled_render `{Engine} (f : File) (a : AppState) :
  (exists img new,
      render (sourceSettled f) a
      = (Returned (Some img),
         mkAppState (status a) (logs a ++ new) (file a) (Some img)
           (processedImage a)))
  \/ (exists e new,
        render (sourceSettled f) a
        = (Returned None,
           mkAppState error (logs a ++ new ++ [("Error: " ++ e)%string])
             (file a) (originalImage a) (processedImage a))).
Proof.
  destruct (awaitedImageSrc_run f) as (o & new & Hrun).
  unfold render, sourceSettled, tryCatch. rewrite bind_run, Hrun.
  destruct o as [img | e].
  - left. exists img, new. reflexivity.
  - right. exists e, new. unfold onUploadError, logged, bind, setStatus,
      addLog, setLogs, modify, ret. project_state.
    rewrite <- app_assoc. reflexivity.
Qed.

Lemma imageLoaded_render `{Engine} (imageSrc : Image) (a : AppState) :
  (exists out new,
      cols out = 1200 /\ rows out = 1800
      /\ render (imageLoaded imageSrc) a
         = (Returned tt,
            mkAppState success (logs a ++ new ++ ["Processing Complete!"%string])
              (file a) (originalImage a) (Some out)))
  \/ (exists e new,
        render (imageLoaded imageSrc) a
        = (Returned tt,
           mkAppState error (logs a ++ new ++ [("Error: " ++ e)%string])
             (file a) (originalImage a) (processedImage a))).
Proof.
  unfold render, imageLoaded, tryCatch.
  destruct (processImage_run_sized imageSrc)
    as [(new & out & Hc & Hr & Hp) | (e & new & Hp)]; rewrite Hp.
  - left. exists out, new. repeat split; assumption.
  - right. exists e, new. unfold onUploadError, logged, bind, setStatus,
      addLog, setLogs, modify, ret. project_state.
    rewrite <- app_assoc. reflexivity.
Qed.

(** A continuation calls [setStatus] at most once: rendered update by
    update, as React did before version 18, it shows no status that
    the batched rendering does not show. *)
Lemma continuation_sets_status_at_most_once `{Engine} (a : AppState) :
  (forall f, (statusUpdates (sourceSettled f) a <= 1)%nat)
  /\ (forall imageSrc, (statusUpdates (imageLoaded imageSrc) a <= 1)%nat)
  /\ (forall oldStatus img direction,
        (statusUpdates (rotateLoaded oldStatus img direction) a <= 1)%nat).
Proof.
  unfold statusUpdates. split; [|split].
  - intros f. destruct (awaitedImageSrc_run f) as (o & new & Hrun).
    unfold sourceSettled, tryCatch. rewrite bind_run, Hrun.
    destruct o as [img | e]; cbn; lia.
  - intros imageSrc. unfold imageLoaded, tryCatch.
    destruct (processImage_run_sized imageSrc)
      as [(new & out & Hc & Hr & Hp) | (e & new & Hp)]; rewrite Hp; cbn; lia.
  - intros oldStatus img direction. cbn. lia.
Qed.

(** ** The moves of the page *)

(** [act] as a relation: every move the page can make. *)
Inductive Move `{Engine} (s : Screen) : Action -> Screen -> Prop :=
| NothingHappens (ev : Action) : Move s ev s
| UploadStarts (f : File) (line : string)
    (Henabled : uploadDisabled (shown s) = false) :
    Move s (ChooseFile (Some f))
      (mkScreen
         (mkAppState processing (uploadLogStart f ++ [line]) (Some f)
            None None)
         (pending s ++ [AwaitingSource f]))
| UploadRefused (f : File)
    (Henabled : uploadDisabled (shown s) = false)
    (Hpdf : String.eqb (type f) "application/pdf" = false)
    (Himage : String.prefix "image/" (type f) = false) :
    Move s (ChooseFile (Some f))
      (mkScreen
         (mkAppState error
            (uploadLogStart f ++ [("Error: " ++ UnsupportedInput)%string])
            (Some f) None None)
         (pending s))
| RotationStarts (direction : string) (img : Image)
    (Himg : processedImage (shown s) = Some img) :
    Move s (ClickRotate direction)
      (mkScreen (withStatus processing (shown s))
         (pending s ++ [AwaitingRotation (status (shown s)) img direction]))
| ResetClicked (Hoffered : resetOffered (shown s) = true) :
    Move s ClickReset (mkScreen cleared (pending s))
| SourceArrives (n : nat) (f : File) (img : Image) (new : list string)
    (Hnth : nth_error (pending s) n = Some (AwaitingSource f)) :
    Move s (Settle n)
      (mkScreen
         (mkAppState (status (shown s)) (logs (shown s) ++ new)
            (file (shown s)) (Some img) (processedImage (shown s)))
         (removeTask n (pending s) ++ [AwaitingImage img]))
| SourceFails (n : nat) (f : File) (e : Error) (new : list string)
    (Hnth : nth_error (pending s) n = Some (AwaitingSource f)) :
    Move s (Settle n)
      (mkScreen
         (mkAppState error
            (logs (shown s) ++ new ++ [("Error: " ++ e)%string])
            (file (shown s)) (originalImage (shown s))
            (processedImage (shown s)))
         (removeTask n (pending s)))
| LabelMade (n : nat) (imageSrc out : Image) (new : list string)
    (Hnth : nth_error (pending s) n = Some (AwaitingImage imageSrc))
    (Hcols : cols out = 1200) (Hrows : rows out = 1800) :
    Move s (Settle n)
      (mkScreen
         (mkAppState success
            (logs (shown s) ++ new ++ ["Processing Complete!"%string])
            (file (shown s)) (originalImage (shown s)) (Some out))
         (removeTask n (pending s)))
| LabelFails (n : nat) (imageSrc : Image) (e : Error) (new : list string)
    (Hnth : nth_error (pending s) n = Some (AwaitingImage imageSrc)) :
    Move s (Settle n)
      (mkScreen
         (mkAppState error
            (logs (shown s) ++ new ++ [("Error: " ++ e)%string])
            (file (shown s)) (originalImage (shown s))
            (processedImage (shown s)))
         (removeTask n (pending s)))
| RotationDone (n : nat) (oldStatus : Status) (img : Image)
    (direction : string)
    (Hnth : nth_error (pending s) n
            = Some (AwaitingRotation oldStatus img direction)) :
    Move s (Settle n)
      (mkScreen
         (mkAppState oldStatus (logs (shown s)) (file (shown s))
            (originalImage (shown s))
            (Some (rotate img (if String.eqb direction "left"
                               then ROTATE_90_COUNTERCLOCKWISE
                               else ROTATE_90_CLOCKWISE))))
         (removeTask n (pending s))).

Lemma act_Move `{Engine} (ev : Action) (s : Screen) : Move s ev (act ev s).
Proof.
  destruct ev as [[f |] | direction | | n]; unfold act.
  - destruct (uploadDisabled (shown s)) eqn:Hen; [constructor|].
    destruct (uploadStart_render f (shown s))
      as [(line & Hr) | (Hpdf & Himage & Hr)]; rewrite Hr.
    + now constructor.
    + now constructor.
  - constructor.
  - destruct (processedImage (shown s)) as [img |] eqn:Himg; [|constructor].
    rewrite rotateStart_render. now constructor.
  - destruct (resetOffered (shown s)) eqn:Hoff; [|constructor].
    rewrite reset_render. now constructor.
  - destruct (nth_error (pending s) n) as [[f | imageSrc | old img d] |]
      eqn:Hnth; [| | |constructor]; cbv zeta.
    + destruct (sourceSettled_render f (shown s))
        as [(img & new & Hr) | (e & new & Hr)]; rewrite Hr.
      * now apply SourceArrives with (f := f).
      * now apply SourceFails with (f := f).
    + destruct (imageLoaded_render imageSrc (shown s))
        as [(out & new & Hc & Hr & Hrun) | (e & new & Hrun)]; rewrite Hrun.
      * now apply LabelMade with (imageSrc := imageSrc).
      * now apply LabelFails with (imageSrc := imageSrc).
    + rewrite rotateLoaded_render. now constructor.
Qed.

Lemma Forall_removeTask {A : Type} (P : A -> Prop) (n : nat) (l : list A) :
  Forall P l -> Forall P (removeTask n l).
Proof.
  intros Hall. unfold removeTask. apply Forall_app. split.
  - apply Forall_forall. intros a Hin.
    apply (proj1 (Forall_forall P l) Hall). rewrite <- (firstn_skipn n l).
    apply in_or_app. now left.
  - apply Forall_forall. intros a Hin.
    apply (proj1 (Forall_forall P l) Hall). rewrite <- (firstn_skipn (S n) l).
    apply in_or_app. now right.
Qed.

Lemma Forall_pending {A : Type} (P : A -> Prop) (n : nat) (l : list A)
  (a : A) :
  Forall P l -> nth_error l n = Some a -> P a.
Proof.
  intros Hall Hnth. apply (proj1 (Forall_forall P l) Hall).
  exact (nth_error_In l n Hnth).
Qed.


Lemma play_invariant `{Engine} (I : Screen -> Prop) (evs : list Action) :
  (forall s ev, I s -> I (act ev s)) ->
  forall s, I s -> I (play evs s).
Proof.
  intros Hstep. unfold play.
  induction evs as [| ev rest IH]; intros s Hs; [exact Hs|].
  cbn [fold_left]. apply IH, Hstep, Hs.
Qed.

(** ** Status transitions *)









Definition before `{Engine} (st : Screen * Action * Screen) : AppState :=
  shown (fst (fst st)).

Definition after `{Engine} (st : Screen * Action * Screen) : AppState :=
  shown (snd st).














(** A second upload right after a success: its reset is rendered
    together with its 'processing', so ready is not shown and the
    images of the first run are gone at once. *)
Example second_upload_does_not_show_ready :
  let E := Scenario.engine [] in
  let s0 := @mkScreen E (present (Scenario.start [])) [] in
  let evs := [ChooseFile (Some (Scenario.png 1000 1400)); Settle 0; Settle 0;
              ChooseFile (Some (Scenario.png 3000 500)); Settle 0; Settle 0] in
  map (fun st => status (after st)) (steps evs s0)
  = [processing; processing; success; processing; processing; error]
  /\ map (fun st => rotateDisabled (after st)) (steps evs s0)
     = [true; true; false; true; true; true].
Proof. vm_compute. split; reflexivity. Qed.

(** Reset stays enabled during a rotation: clicked then, it shows
    ready while the rotation waits, and the rotation, once done, shows
    success again, with the rotated image and no file. *)
Example reset_during_a_rotation :
  let E := Scenario.engine [] in
  let s0 := @mkScreen E (present (Scenario.start [])) [] in
  let evs := [ChooseFile (Some (Scenario.png 1000 1400)); Settle 0; Settle 0;
              ClickRotate "left"%string; ClickReset; Settle 0] in
  map (fun st => status (after st)) (steps evs s0)
  = [processing; processing; success; processing; ready; success]
  /\ file (shown (play evs s0)) = None
  /\ rotateDisabled (shown (play evs s0)) = false.
Proof. vm_compute. repeat split. Qed.

(** Rotate stays enabled during a rotation: clicked twice in a row, the
    second rotation restores 'processing', and nothing is left waiting
    that would end it. *)
Example second_rotation_during_the_first :
  let E := Scenario.engine [] in
  let s0 := @mkScreen E (present (Scenario.start [])) [] in
  let evs := [ChooseFile (Some (Scenario.png 1000 1400)); Settle 0; Settle 0;
              ClickRotate "left"%string; ClickRotate "left"%string;
              Settle 0; Settle 0] in
  map (fun st => status (after st)) (steps evs s0)
  = [processing; processing; success; processing; processing; success;
     processing]
  /\ List.length (pending (play evs s0)) = 0%nat
  /\ uploadDisabled (shown (play evs s0)) = true.
Proof. vm_compute. repeat split. Qed.

(** An image that never loads: the upload stays in processing, and no
    control of the page is enabled. *)
Example upload_waiting_for_its_image :
  let E := Scenario.engine [] in
  let s0 := @mkScreen E (present (Scenario.start [])) [] in
  let s := play [ChooseFile (Some (Scenario.png 1000 1400)); Settle 0] s0 in
  status (shown s) = processing
  /\ List.length (pending s) = 1%nat
  /\ uploadDisabled (shown s) = true
  /\ rotateDisabled (shown s) = true
  /\ resetOffered (shown s) = false.
Proof. vm_compute. repeat split. Qed.

(** ** An upload, piece by piece (lines 98-128, 224-349) *)

(** X7. The piece of an upload that runs at the change event renders a
    state that depends on the chosen file only, not on the state before:
    nothing of an earlier run is shown once an upload has started.  No
    piece of an upload throws to its caller, and an event without a
    file changes nothing. *)
Theorem upload_start_discards_the_previous_run `{Engine} (f : File) :
  (forall a1 a2, render (uploadStart f) a1 = render (uploadStart f) a2)
  /\ (forall a, exists started,
         fst (render (uploadStart f) a) = Returned started)
  /\ (forall a, exists loaded,
         fst (render (sourceSettled f) a) = Returned loaded)
  /\ (forall imageSrc a, fst (render (imageLoaded imageSrc) a) = Returned tt)
  /\ (forall w, handleFileUpload None w = (Returned tt, w))
  /\ (forall s, act (ChooseFile None) s = s).
Proof.
  split; [|split; [|split; [|split; [|split]]]].
  - intros a1 a2. unfold render, uploadStart, announceType.
    destruct (String.eqb (type f) "application/pdf"); [reflexivity|].
    destruct (String.prefix "image/" (type f)); reflexivity.
  - intros a.
    destruct (uploadStart_render f a) as [(l1 & H1) | (_ & _ & H1)];
      rewrite H1; eexists; reflexivity.
  - intros a.
    destruct (sourceSettled_render f a) as [(img & new & H1) | (e & new & H1)];
      rewrite H1; eexists; reflexivity.
  - intros imageSrc a.
    destruct (imageLoaded_render imageSrc a)
      as [(out & new & _ & _ & H1) | (e & new & H1)];
      rewrite H1; reflexivity.
  - reflexivity.
  - reflexivity.
Qed.

(** X8. What an upload shows, piece by piece.  At the change event:
    the file, no image, a log starting afresh with 'Ready for new
    file.' and 'Processing file: <name>', and the status processing,
    or error at once when the declared type is unsupported.  When the
    image source has settled: the original image, with the status
    unchanged, or the status error with 'Error: ' and the message as
    last log line.  When the image has loaded: the status success with
    a 1200 x 1800 processed image and 'Processing Complete!' as last
    log line, or the status error with the processed image unchanged
    and 'Error: ' and the message as last log line.  Neither later
    piece touches the file. *)
Theorem upload_shows_processing_then_success_or_error `{Engine}
  (f : File) (imageSrc : Image) (a : AppState) :
  (let r := render (uploadStart f) a in
   file (snd r) = Some f
   /\ originalImage (snd r) = None /\ processedImage (snd r) = None
   /\ firstn 2 (logs (snd r)) = uploadLogStart f
   /\ ((fst r = Returned true /\ status (snd r) = processing)
       \/ (fst r = Returned false /\ status (snd r) = error
           /\ String.eqb (type f) "application/pdf" = false
           /\ String.prefix "image/" (type f) = false
           /\ last (logs (snd r)) EmptyString
              = ("Error: " ++ UnsupportedInput)%string)))
  /\ (let r := render (sourceSettled f) a in
      file (snd r) = file a
      /\ processedImage (snd r) = processedImage a
      /\ ((exists img,
              fst r = Returned (Some img) /\ status (snd r) = status a
              /\ originalImage (snd r) = Some img)
          \/ (exists e,
                fst r = Returned None /\ status (snd r) = error
                /\ originalImage (snd r) = originalImage a
                /\ last (logs (snd r)) EmptyString
                   = ("Error: " ++ e)%string)))
  /\ (let r := render (imageLoaded imageSrc) a in
      file (snd r) = file a
      /\ originalImage (snd r) = originalImage a
      /\ ((exists out,
              status (snd r) = success
              /\ processedImage (snd r) = Some out
              /\ cols out = 1200 /\ rows out = 1800
              /\ last (logs (snd r)) EmptyString
                 = "Processing Complete!"%string)
          \/ (exists e,
                status (snd r) = error
                /\ processedImage (snd r) = processedImage a
                /\ last (logs (snd r)) EmptyString
                   = ("Error: " ++ e)%string))).
Proof.
  cbv zeta. split; [|split].
  - destruct (uploadStart_render f a) as [(line & Hr) | (Hpdf & Himage & Hr)];
      rewrite Hr; cbn [fst snd file originalImage processedImage logs status].
    + repeat split. left. split; reflexivity.
    + repeat split. right. repeat split; assumption.
  - destruct (sourceSettled_render f a) as [(img & new & Hr) | (e & new & Hr)];
      rewrite Hr; cbn [fst snd file originalImage processedImage logs status].
    + repeat split. left. exists img. repeat split.
    + repeat split. right. exists e. repeat split.
      rewrite app_assoc. apply last_last.
  - destruct (imageLoaded_render imageSrc a)
      as [(out & new & Hc & Hrw & Hr) | (e & new & Hr)];
      rewrite Hr; cbn [fst snd file originalImage processedImage logs status].
    + repeat split. left. exists out. repeat split; try assumption.
      rewrite app_assoc. apply last_last.
    + repeat split. right. exists e. repeat split.
      rewrite app_assoc. apply last_last.
Qed.

(** ** What the toolbar offers while handlers overlap (lines 557-607) *)

(** A label: 1200 x 1800, or 1800 x 1200 after a quarter turn. *)
Definition labelSized `{Engine} (img : Image) : Prop :=
  (cols img = 1200 /\ rows img = 1800) \/ (cols img = 1800 /\ rows img = 1200).

(** Success is shown with a processed image only, every processed
    image is a label, the libraries stay loaded, and the same holds of
    what the waiting rotations will show. *)
Definition printable `{Engine} (s : Screen) : Prop :=
  status (shown s) <> loading
  /\ (status (shown s) = success -> processedImage (shown s) <> None)
  /\ (forall out, processedImage (shown s) = Some out -> labelSized out)
  /\ Forall (fun t => match t with
                      | AwaitingRotation oldStatus img _ =>
                          oldStatus <> loading /\ labelSized img
                      | _ => True
                      end) (pending s).

Lemma rotate_labelSized `{Engine} (img : Image) (code : RotateFlags) :
  labelSized img -> labelSized (rotate img code).
Proof.
  unfold labelSized. destruct code; cbn; intros [[Hc Hr] | [Hc Hr]]; auto.
Qed.

Lemma Move_printable `{Engine} (s s' : Screen) (ev : Action) :
  Move s ev s' -> printable s -> printable s'.
Proof.
  unfold printable.
  intros Hm (Hload & Hsucc & Hsize & Htasks).
  destruct Hm; cbn [shown pending status processedImage].
  - repeat split; assumption.
  - repeat split; try discriminate.
    apply Forall_app. split; [assumption | now repeat constructor].
  - repeat split; try discriminate. assumption.
  - repeat split; try discriminate; try assumption.
    apply Forall_app. split; [assumption|].
    apply Forall_cons; [|apply Forall_nil].
    split; [assumption | now apply Hsize].
  - repeat split; try discriminate. assumption.
  - repeat split; try assumption.
    apply Forall_app. split; [now apply Forall_removeTask|].
    now repeat constructor.
  - repeat split; try discriminate; try assumption.
    now apply Forall_removeTask.
  - repeat split; try discriminate.
    + intros out' [= <-]. left. split; assumption.
    + now apply Forall_removeTask.
  - repeat split; try discriminate; try assumption.
    now apply Forall_removeTask.
  - pose proof (Forall_pending _ _ _ _ Htasks Hnth) as [Hold Himg].
    repeat split; try discriminate; try assumption.
    + intros out' [= <-]. now apply rotate_labelSized.
    + now apply Forall_removeTask.
Qed.

(** X11. However uploads, rotations, resets and the resumptions of
    waiting handlers follow each other, overlapping or not: whenever
    Print and Download are enabled (status success), so are Rotate and
    Reset (a processed image exists); a processed image is always
    1200 x 1800 or 1800 x 1200; and the status never returns to
    loading. *)
Theorem print_is_offered_only_with_a_label `{Engine}
  (evs : list Action) (s0 : Screen) :
  printable s0 ->
  let a := shown (play evs s0) in
  (printDisabled a = false -> rotateDisabled a = false)
  /\ (forall out, processedImage a = Some out -> labelSized out)
  /\ status a <> loading.
Proof.
  intros H0.
  assert (Hend : printable (play evs s0)).
  { apply play_invariant; [|exact H0].
    intros s ev Hs. exact (Move_printable _ _ _ (act_Move ev s) Hs). }
  destruct Hend as (Hload & Hsucc & Hsize & _).
  cbv zeta. split; [|split; assumption].
  unfold printDisabled, rotateDisabled. intros Hprint.
  destruct (status (shown (play evs s0))) eqn:Hst; try discriminate.
  destruct (processedImage (shown (play evs s0))); [reflexivity|].
  now contradiction Hsucc.
Qed.

Lemma print_is_offered_only_with_a_label_witness :
  let E := Scenario.engine [] in
  let s0 := @mkScreen E (present (Scenario.start [])) [] in
  let evs := [ChooseFile (Some (Scenario.png 1000 1400)); Settle 0; Settle 0;
              ClickRotate "left"%string; ClickRotate "right"%string;
              Settle 1; ClickReset; Settle 0] in
  printable s0
  /\ (let a := shown (play evs s0) in
      (printDisabled a = false -> rotateDisabled a = false)
      /\ (forall out, processedImage a = Some out -> labelSized out)
      /\ status a <> loading)
  /\ status (shown (play evs s0)) = success.
Proof.
  intros E s0 evs.
  assert (H0 : printable s0).
  { split; [discriminate|]. split; [discriminate|].
    split; [intros out Hout; discriminate | constructor]. }
  split; [exact H0|].
  split; [exact (@print_is_offered_only_with_a_label E evs s0 H0)|].
  vm_compute. reflexivity.
Defined.
